(** * DeliVeri: the live delivery-tracking pipeline

    A shallow embedding of the tracking pipeline of the repository:

    - [Sql]: the tables, the trigger function
      [update_delivery_current_location] and the functions
      [calculate_distance_km] and [estimate_arrival_time] of
      [supabase/migrations/20260204000002_add_gps_tracking.sql];
    - [Tracker]: the class [LocationTrackerService] of
      [deliveri-driver/src/services/LocationTracker.ts];
    - [Subscriber]: the hook [useDeliveryLocation] and the function
      [getTrackingStatus] of the web client.

    PostgreSQL [numeric] values are modelled as rationals ([Q]) with exact
    arithmetic, SQL NULL as [None], [timestamptz] and [interval] values as
    integers counting microseconds; a [Date] of the client counts
    milliseconds. A [numeric] value here is a number: the value NaN, which
    a [numeric] column also takes, is outside the model, and so is a time
    or an interval beyond the range of its type. Outside the model as
    well: row level security (a request it refuses is a request the
    datastore does not let through), the rounding of [numeric] division
    and of [double precision], and the interleaving of asynchronous calls:
    a method of the tracker runs to its end before the next event, and the
    calls it makes into [expo-location] and [expo-task-manager] are taken
    to return, so that no statement here speaks of a method that a
    rejected call left half way. *)

From stdpp Require Import gmap strings list fin_maps pretty sorting.
From Stdlib Require Import QArith Qround.

Local Open Scope Z_scope.

(** ** Outcomes of database statements *)

Inductive sqlstate : Type :=
  | unique_violation
  | foreign_key_violation
  | division_by_zero
  | invalid_argument_for_power_function
  | numeric_value_out_of_range.

Inductive outcome (A : Type) : Type :=
  | Returned (a : A)
  | Raised (e : sqlstate).
Arguments Returned {A} a.
Arguments Raised {A} e.

Definition obind {A B} (m : outcome A) (k : A -> outcome B) : outcome B :=
  match m with
  | Returned a => k a
  | Raised e => Raised e
  end.

Notation "'let!' x ':=' m 'in' k" := (obind m (fun x => k))
  (at level 10, x name, m at level 100, k at level 200).

Module Sql.

(** Values of the columns: [numeric] is [Q], [uuid] and [text] are strings,
    [timestamptz] is a number of microseconds. *)
Abbreviation uuid := string (only parsing).
Abbreviation timestamptz := Z (only parsing).

(** *** Tables *)

(** A row of [public.delivery_locations], as it is stored (the values after
    the column types were applied, see [coerce] below for the values a
    statement is given). *)
Record delivery_location : Type := {
  id : uuid;
  delivery_id : uuid;
  driver_id : option uuid;
  latitude : Q;
  longitude : Q;
  accuracy : option Q;
  altitude : option Q;
  speed : option Q;
  heading : option Q;
  battery_level : option Q;
  recorded_at : timestamptz;
  created_at : timestamptz
}.

(** The values of [tracking_status] the clients write and read. *)
Inductive tracking_status_t : Type := pending | in_transit | delivered.

(** A row of [public.outgoing_deliveries], keyed by its primary key [id] in
    the table: the columns the clients use and the tracking columns added by
    the migration. *)
Record outgoing_delivery : Type := {
  supplier_id : string;
  restaurant_id : uuid;
  status : string;
  tracking_status : option tracking_status_t;
  od_driver_id : option uuid;
  current_latitude : option Q;
  current_longitude : option Q;
  current_speed : option Q;
  current_heading : option Q;
  last_location_update : option timestamptz;
  tracking_started_at : option timestamptz;
  tracking_ended_at : option timestamptz;
  estimated_arrival_time : option timestamptz;
  route_distance_km : option Q;
  route_duration_minutes : option Z
}.

(** A row of [public.restaurants]: the destination columns. *)
Record restaurant : Type := {
  r_latitude : option Q;
  r_longitude : option Q;
  delivery_instructions : option string
}.

(** The database: tables with a primary key are finite maps from the key,
    [delivery_locations] is kept in insertion order (oldest first). *)
Record database : Type := {
  drivers : gset uuid;
  restaurants : gmap uuid restaurant;
  outgoing_deliveries : gmap uuid outgoing_delivery;
  delivery_locations : list delivery_location
}.

(** *** The projector *)

(** [UPDATE public.outgoing_deliveries SET current_latitude = NEW.latitude,
    ... WHERE id = NEW.delivery_id], on one row. *)
Definition set_current_location (NEW : delivery_location)
    (od : outgoing_delivery) : outgoing_delivery :=
  {| supplier_id := supplier_id od;
     restaurant_id := restaurant_id od;
     status := status od;
     tracking_status := tracking_status od;
     od_driver_id := od_driver_id od;
     current_latitude := Some (latitude NEW);
     current_longitude := Some (longitude NEW);
     current_speed := speed NEW;
     current_heading := heading NEW;
     last_location_update := Some (recorded_at NEW);
     tracking_started_at := tracking_started_at od;
     tracking_ended_at := tracking_ended_at od;
     estimated_arrival_time := estimated_arrival_time od;
     route_distance_km := route_distance_km od;
     route_duration_minutes := route_duration_minutes od |}.

(** The trigger function, run [AFTER INSERT ... FOR EACH ROW] on
    [delivery_locations]. *)
Definition update_delivery_current_location (NEW : delivery_location)
    (db : database) : database :=
  {| drivers := drivers db;
     restaurants := restaurants db;
     outgoing_deliveries :=
       alter (set_current_location NEW) (delivery_id NEW)
             (outgoing_deliveries db);
     delivery_locations := delivery_locations db |}.

(** [INSERT INTO public.delivery_locations] of a row as it is stored, its
    numbers already of the types of the columns ([insert_values] below is
    the statement on the values a client sends): the primary key and the
    two foreign keys are checked, the row is appended, the trigger runs. *)
Definition insert_delivery_location (row : delivery_location)
    (db : database) : outcome database :=
  if bool_decide (id row ∈ id <$> delivery_locations db) then
    Raised unique_violation
  else if bool_decide (outgoing_deliveries db !! delivery_id row = None) then
    Raised foreign_key_violation
  else if match driver_id row with
          | None => true
          | Some d => bool_decide (d ∈ drivers db)
          end
  then
    Returned
      (update_delivery_current_location row
         {| drivers := drivers db;
            restaurants := restaurants db;
            outgoing_deliveries := outgoing_deliveries db;
            delivery_locations := delivery_locations db ++ [row] |})
  else Raised foreign_key_violation.

(** A sequence of inserts, in order; the first failure stops it. *)
Fixpoint insert_all (rows : list delivery_location) (db : database)
    : outcome database :=
  match rows with
  | [] => Returned db
  | row :: rest =>
      let! db' := insert_delivery_location row db in insert_all rest db'
  end.

(** The snapshot columns of a delivery, and the values a fix gives them. *)
Definition snapshot : Type :=
  option Q * option Q * option Q * option Q * option timestamptz.

Definition snapshot_of (od : outgoing_delivery) : snapshot :=
  (current_latitude od, current_longitude od, current_speed od,
   current_heading od, last_location_update od).

Definition fix_fields (f : delivery_location) : snapshot :=
  (Some (latitude f), Some (longitude f), speed f, heading f,
   Some (recorded_at f)).

(** A statement that fails leaves the database as it was; the statements
    after it run all the same. *)
Definition ingest (db : database) (row : delivery_location) : database :=
  match insert_delivery_location row db with
  | Returned db' => db'
  | Raised _ => db
  end.

Definition ingest_all (rows : list delivery_location) (db : database)
    : database :=
  foldl ingest db rows.

(** *** The types of the columns *)

(** To the nearest integer, a half away from zero. *)
Definition round_half_away (q : Q) : Z :=
  if Qlt_le_dec q 0 then - Qfloor (- q + (1 # 2))%Q
  else Qfloor (q + (1 # 2))%Q.

(** A value given to a column [decimal(p, s)]: it is rounded to [s]
    decimals, and refused when the rounded value has more than [p - s]
    digits before the point. *)
Definition typmod (p s : Z) (x : Q) : outcome Q :=
  let n := round_half_away (x * inject_Z (10 ^ s))%Q in
  if 10 ^ (p - s) * 10 ^ s <=? Z.abs n then Raised numeric_value_out_of_range
  else Returned (n # Z.to_pos (10 ^ s))%Q.

Definition typmod_null (p s : Z) (x : option Q) : outcome (option Q) :=
  match x with
  | None => Returned None
  | Some q => let! r := typmod p s q in Returned (Some r)
  end.

(** The row [INSERT INTO public.delivery_locations] makes of the values it
    is given: each number takes the type of its column. *)
Definition coerce (v : delivery_location) : outcome delivery_location :=
  let! lat := typmod 10 8 (latitude v) in
  let! lon := typmod 11 8 (longitude v) in
  let! acc := typmod_null 8 2 (accuracy v) in
  let! alt := typmod_null 10 2 (altitude v) in
  let! spd := typmod_null 6 2 (speed v) in
  let! hdg := typmod_null 5 2 (heading v) in
  let! bat := typmod_null 5 2 (battery_level v) in
  Returned
    {| id := id v;
       delivery_id := delivery_id v;
       driver_id := driver_id v;
       latitude := lat;
       longitude := lon;
       accuracy := acc;
       altitude := alt;
       speed := spd;
       heading := hdg;
       battery_level := bat;
       recorded_at := recorded_at v;
       created_at := created_at v |}.

(** The whole statement on the values a client sends: the values take the
    types of the columns, then the row is inserted. *)
Definition insert_values (v : delivery_location) (db : database)
    : outcome database :=
  let! row := coerce v in insert_delivery_location row db.

(** The same for a statement whose failure the client only reports. *)
Definition ingest_values (db : database) (v : delivery_location)
    : database :=
  match insert_values v db with
  | Returned db' => db'
  | Raised _ => db
  end.

(** *** Statements about the snapshot *)

(** The fixes of a delivery in a log, oldest insertion first. *)
Definition fixes_of (d : string) (log : list delivery_location)
    : list delivery_location :=
  filter (fun f => delivery_id f = d) log.

(** The snapshot of a delivery is present. *)
Definition snapshot_present (od : outgoing_delivery) : Prop :=
  is_Some (current_latitude od).

(** [f] is a fix of [d] in the log, and no fix of [d] in the log was
    recorded later. *)
Definition latest_recorded (d : string) (log : list delivery_location)
    (f : delivery_location) : Prop :=
  f ∈ log ∧ delivery_id f = d ∧
  ∀ g, g ∈ log → delivery_id g = d → recorded_at g <= recorded_at f.

(** The snapshot follows the time of recording: each snapshot that is
    present is the fix of its delivery recorded last. *)
Definition snapshot_follows_recorded_at (db : database) : Prop :=
  ∀ d od,
    outgoing_deliveries db !! d = Some od →
    snapshot_present od →
    ∃ f, latest_recorded d (delivery_locations db) f ∧
         snapshot_of od = fix_fields f.

(** The fixes of the delivery [d] come in the log in the order of their
    times of recording. *)
Definition recorded_in_order_for (d : string)
    (log : list delivery_location) : Prop :=
  ∀ (i j : nat) f g,
    (i <= j)%nat →
    fixes_of d log !! i = Some f → fixes_of d log !! j = Some g →
    recorded_at f <= recorded_at g.

(** The fixes that were appended to the log of [db0] on the way to [db]. *)
Definition appended (db0 db : database) : list delivery_location :=
  drop (length (delivery_locations db0)) (delivery_locations db).

(** The snapshot of a delivery of [db] is the last of the fixes appended
    for it since [db0]; a delivery for which none was appended has the row
    it had in [db0]. *)
Definition snapshot_follows_appended (db0 db : database) : Prop :=
  delivery_locations db = delivery_locations db0 ++ appended db0 db ∧
  ∀ d od,
    outgoing_deliveries db !! d = Some od →
    match last (fixes_of d (appended db0 db)) with
    | Some f => snapshot_of od = fix_fields f
    | None => outgoing_deliveries db0 !! d = Some od
    end.

(** No fix was stored and no snapshot is present. *)
Definition fresh (db : database) : Prop :=
  delivery_locations db = [] ∧
  ∀ d od, outgoing_deliveries db !! d = Some od → current_latitude od = None.

(** The snapshot is the fix of the delivery inserted last, and absent as
    long as there is none. *)
Definition snapshot_follows_insertion (db : database) : Prop :=
  ∀ d od,
    outgoing_deliveries db !! d = Some od →
    match last (fixes_of d (delivery_locations db)) with
    | Some f => snapshot_of od = fix_fields f
    | None => current_latitude od = None
    end.

(** *** The ETA estimator *)

(** [x IS NULL]. *)
Definition is_null {A} (x : option A) : bool :=
  match x with
  | None => true
  | Some _ => false
  end.

(** Operators are strict: a NULL operand gives NULL. *)
Definition strict2 (f : Q -> Q -> Q) (x y : option Q) : option Q :=
  match x, y with
  | Some a, Some b => Some (f a b)
  | _, _ => None
  end.

Declare Scope numeric_scope.
Delimit Scope numeric_scope with numeric.
Infix "+" := (strict2 Qplus) : numeric_scope.
Infix "-" := (strict2 Qminus) : numeric_scope.
Infix "*" := (strict2 Qmult) : numeric_scope.

(** [x / y] on [numeric]: NULL if an operand is, an error if the divisor is
    zero. *)
Definition numeric_div (x y : option Q) : outcome (option Q) :=
  match x, y with
  | Some a, Some b =>
      if Qeq_bool b 0 then Raised division_by_zero
      else Returned (Some (a / b)%Q)
  | _, _ => Returned None
  end.

(** [interval] values count microseconds; a number of minutes is taken to
    the nearest one, a half of a microsecond toward zero. *)
Definition interval_of_minutes (m : Q) : Z :=
  if Qlt_le_dec (m * 60000000) 0
  then Qfloor (m * 60000000 + (1 # 2))%Q
  else Qceiling (m * 60000000 - (1 # 2))%Q.

Section Estimator.

(** The functions [radians], [sin], [cos], [atan2] of PostgreSQL work on
    [double precision]; they and the value of [sqrt] on a number that is
    not negative are left open. *)
Variables radians sin cos sqrt : Q -> Q.
Variable atan2 : Q -> Q -> Q.

(** [sqrt(x)]: NULL for NULL, an error for a negative number. *)
Definition numeric_sqrt (x : option Q) : outcome (option Q) :=
  match x with
  | None => Returned None
  | Some a =>
      if Qlt_le_dec a 0 then Raised invalid_argument_for_power_function
      else Returned (Some (sqrt a))
  end.

Definition calculate_distance_km (lat1 lon1 lat2 lon2 : option Q)
    : outcome (option Q) :=
  let R := Some 6371%Q in
  let dlat := radians <$> (lat2 - lat1)%numeric in
  let dlon := radians <$> (lon2 - lon1)%numeric in
  let! hlat := numeric_div dlat (Some 2%Q) in
  let! hlon := numeric_div dlon (Some 2%Q) in
  let a :=
    ((sin <$> hlat) * (sin <$> hlat)
     + (cos <$> (radians <$> lat1)) * (cos <$> (radians <$> lat2))
       * (sin <$> hlon) * (sin <$> hlon))%numeric in
  let! sa := numeric_sqrt a in
  let! sb := numeric_sqrt (Some 1%Q - a)%numeric in
  let c := (Some 2%Q * strict2 atan2 sa sb)%numeric in
  Returned (R * c)%numeric.

(** [estimate_arrival_time(p_delivery_id)], with the value of [now()]. *)
Definition estimate_arrival_time (now : timestamptz) (db : database)
    (p_delivery_id : uuid) : outcome (option timestamptz) :=
  let od := outgoing_deliveries db !! p_delivery_id in
  let v_current_lat := od ≫= current_latitude in
  let v_current_lon := od ≫= current_longitude in
  let v_current_speed := od ≫= current_speed in
  let r := od ≫= (fun od => restaurants db !! restaurant_id od) in
  let v_dest_lat := r ≫= r_latitude in
  let v_dest_lon := r ≫= r_longitude in
  if is_null v_current_lat || is_null v_dest_lat
  then Returned None
  else
    let! v_distance_km :=
      calculate_distance_km v_current_lat v_current_lon
                            v_dest_lat v_dest_lon in
    let v_current_speed :=
      match v_current_speed with
      | None => Some 8.33%Q
      | Some s => if Qlt_le_dec s 1 then Some 8.33%Q else Some s
      end in
    let! q :=
      numeric_div v_distance_km (v_current_speed * Some 3.6%Q)%numeric in
    let v_eta_minutes := (q * Some 60%Q)%numeric in
    Returned ((fun m => now + interval_of_minutes m) <$> v_eta_minutes).

End Estimator.

(** *** Statements about the estimate *)

(** The speed the estimate divides by, in the words of the specification:
    8.33 when the current speed is unknown or below 1, the current speed
    otherwise. *)
Inductive speed_used : option Q -> Q -> Prop :=
  | speed_unknown : speed_used None 8.33%Q
  | speed_below_1 (s : Q) : (s < 1)%Q -> speed_used (Some s) 8.33%Q
  | speed_live (s : Q) : (1 <= s)%Q -> speed_used (Some s) s.

End Sql.

(** ** The position sampler on the driver's device *)

Module Tracker.

Record TrackingSession : Type := {
  deliveryId : string;
  driverId : string;
  restaurantId : string
}.

(** [Location.LocationObject]: the coordinates, each number given by the
    decimal that is written for it in the request. *)
Record LocationObjectCoords : Type := {
  latitude : Q;
  longitude : Q;
  altitude : option Q;
  accuracy : option Q;
  speed : option Q;
  heading : option Q
}.

Record LocationObject : Type := {
  coords : LocationObjectCoords;
  timestamp : Z
}.

Inductive PermissionStatus : Type := granted | denied | undetermined.

Definition is_granted (s : PermissionStatus) : bool :=
  match s with
  | granted => true
  | _ => false
  end.

(** The fields of the [LocationTrackerService] singleton. *)
Record Service : Type := {
  currentSession : option TrackingSession;
  isTracking : bool;
  foregroundSubscription : option nat
}.

(** What [expo-location] and [expo-task-manager] hold: the answers to the
    permission requests, the live [watchPositionAsync] subscriptions (by
    handle) and whether location updates run for [LOCATION_TASK_NAME]. *)
Record Device : Type := {
  foregroundStatus : PermissionStatus;
  backgroundStatus : PermissionStatus;
  watchers : gset nat;
  next_handle : nat;
  task_registered : bool
}.

(** The hosted datastore behind the [supabase] client: its tables, whether a
    request reaches it and is let through, its clock and the count of the
    identifiers it has generated. *)
Record Backend : Type := {
  db : Sql.database;
  accepts : bool;
  server_now : Z;
  generated : nat
}.

Inductive level : Type := warn | error.

Record World : Type := {
  service : Service;
  device : Device;
  backend : Backend;
  clock : Z;
  console : list (level * string)
}.

(** *** Sequencing of the asynchronous methods *)

Definition M (A : Type) : Type := World -> A * World.

Definition ret {A} (a : A) : M A := fun w => (a, w).

Definition bind {A B} (m : M A) (k : A -> M B) : M B :=
  fun w => let (a, w') := m w in k a w'.

Notation "'await' x <- m ; k" := (bind m (fun x => k))
  (at level 10, x name, m at level 100, k at level 200).
Notation "m ;; k" := (bind m (fun _ => k))
  (at level 100, k at level 200, right associativity).

Definition gets {A} (f : World -> A) : M A := fun w => (f w, w).

Definition set_service (f : Service -> Service) : M unit :=
  fun w => (tt, {| service := f (service w); device := device w;
                   backend := backend w; clock := clock w;
                   console := console w |}).

Definition set_device (f : Device -> Device) : M unit :=
  fun w => (tt, {| service := service w; device := f (device w);
                   backend := backend w; clock := clock w;
                   console := console w |}).

Definition set_backend (f : Backend -> Backend) : M unit :=
  fun w => (tt, {| service := service w; device := device w;
                   backend := f (backend w); clock := clock w;
                   console := console w |}).

Definition console_log (l : level) (msg : string) : M unit :=
  fun w => (tt, {| service := service w; device := device w;
                   backend := backend w; clock := clock w;
                   console := console w ++ [(l, msg)] |}).

Definition when (b : bool) (m : M unit) : M unit :=
  if b then m else ret tt.

(** *** [expo-location] and [expo-task-manager] *)

Definition requestForegroundPermissionsAsync : M PermissionStatus :=
  gets (fun w => foregroundStatus (device w)).

Definition requestBackgroundPermissionsAsync : M PermissionStatus :=
  gets (fun w => backgroundStatus (device w)).

Definition getBackgroundPermissionsAsync : M PermissionStatus :=
  gets (fun w => backgroundStatus (device w)).

(** A new subscription, under a handle not used before. *)
Definition watchPositionAsync : M nat :=
  await h <- gets (fun w => next_handle (device w));
  set_device (fun d =>
    {| foregroundStatus := foregroundStatus d;
       backgroundStatus := backgroundStatus d;
       watchers := {[h]} ∪ watchers d;
       next_handle := S h;
       task_registered := task_registered d |});;
  ret h.

(** [subscription.remove()]. *)
Definition remove (h : nat) : M unit :=
  set_device (fun d =>
    {| foregroundStatus := foregroundStatus d;
       backgroundStatus := backgroundStatus d;
       watchers := watchers d ∖ {[h]};
       next_handle := next_handle d;
       task_registered := task_registered d |}).

Definition set_task_registered (b : bool) : M unit :=
  set_device (fun d =>
    {| foregroundStatus := foregroundStatus d;
       backgroundStatus := backgroundStatus d;
       watchers := watchers d;
       next_handle := next_handle d;
       task_registered := b |}).

Definition startLocationUpdatesAsync : M unit := set_task_registered true.
Definition stopLocationUpdatesAsync : M unit := set_task_registered false.

Definition isTaskRegisteredAsync : M bool :=
  gets (fun w => task_registered (device w)).

(** [new Date().toISOString()]. *)
Definition new_Date : M Z := gets clock.

(** *** The [supabase] client *)

(** The row after [.update({tracking_status: 'in_transit',
    tracking_started_at: t})]. *)
Definition mark_in_transit (t : Z) (od : Sql.outgoing_delivery)
    : Sql.outgoing_delivery :=
  {| Sql.supplier_id := Sql.supplier_id od;
     Sql.restaurant_id := Sql.restaurant_id od;
     Sql.status := Sql.status od;
     Sql.tracking_status := Some Sql.in_transit;
     Sql.od_driver_id := Sql.od_driver_id od;
     Sql.current_latitude := Sql.current_latitude od;
     Sql.current_longitude := Sql.current_longitude od;
     Sql.current_speed := Sql.current_speed od;
     Sql.current_heading := Sql.current_heading od;
     Sql.last_location_update := Sql.last_location_update od;
     Sql.tracking_started_at := Some t;
     Sql.tracking_ended_at := Sql.tracking_ended_at od;
     Sql.estimated_arrival_time := Sql.estimated_arrival_time od;
     Sql.route_distance_km := Sql.route_distance_km od;
     Sql.route_duration_minutes := Sql.route_duration_minutes od |}.

(** The row after [.update({tracking_status: 'delivered',
    tracking_ended_at: t})]. *)
Definition mark_delivered (t : Z) (od : Sql.outgoing_delivery)
    : Sql.outgoing_delivery :=
  {| Sql.supplier_id := Sql.supplier_id od;
     Sql.restaurant_id := Sql.restaurant_id od;
     Sql.status := Sql.status od;
     Sql.tracking_status := Some Sql.delivered;
     Sql.od_driver_id := Sql.od_driver_id od;
     Sql.current_latitude := Sql.current_latitude od;
     Sql.current_longitude := Sql.current_longitude od;
     Sql.current_speed := Sql.current_speed od;
     Sql.current_heading := Sql.current_heading od;
     Sql.last_location_update := Sql.last_location_update od;
     Sql.tracking_started_at := Sql.tracking_started_at od;
     Sql.tracking_ended_at := Some t;
     Sql.estimated_arrival_time := Sql.estimated_arrival_time od;
     Sql.route_distance_km := Sql.route_distance_km od;
     Sql.route_duration_minutes := Sql.route_duration_minutes od |}.

Definition with_deliveries
    (f : gmap string Sql.outgoing_delivery -> gmap string Sql.outgoing_delivery)
    (d : Sql.database) : Sql.database :=
  {| Sql.drivers := Sql.drivers d;
     Sql.restaurants := Sql.restaurants d;
     Sql.outgoing_deliveries := f (Sql.outgoing_deliveries d);
     Sql.delivery_locations := Sql.delivery_locations d |}.

(** [supabase.from('outgoing_deliveries').update(...).eq('id', id)]: the
    answer is whether [error] is set. A request that is not let through
    changes nothing. *)
Definition update_outgoing_delivery
    (f : Sql.outgoing_delivery -> Sql.outgoing_delivery) (id : string)
    : M bool :=
  await ok <- gets (fun w => accepts (backend w));
  if ok then
    set_backend (fun b =>
      {| db := with_deliveries (alter f id) (db b);
         accepts := accepts b;
         server_now := server_now b;
         generated := generated b |});;
    ret false
  else ret true.

(** The values of the insert of [sendLocationUpdate]: [id], [recorded_at]
    and [created_at] take their defaults ([gen_random_uuid()], numbered
    here, and [now()]), [altitude] and [battery_level] are not sent. *)
Definition location_row (b : Backend) (s : TrackingSession)
    (c : LocationObjectCoords) : Sql.delivery_location :=
  {| Sql.id := pretty (generated b);
     Sql.delivery_id := deliveryId s;
     Sql.driver_id := Some (driverId s);
     Sql.latitude := latitude c;
     Sql.longitude := longitude c;
     Sql.accuracy := accuracy c;
     Sql.altitude := None;
     Sql.speed := speed c;
     Sql.heading := heading c;
     Sql.battery_level := None;
     Sql.recorded_at := server_now b;
     Sql.created_at := server_now b |}.

(** [supabase.from('delivery_locations').insert(...)]: the answer is
    whether [error] is set. *)
Definition insert_delivery_location (s : TrackingSession)
    (c : LocationObjectCoords) : M bool :=
  await b <- gets backend;
  if accepts b then
    match Sql.insert_values (location_row b s c) (db b) with
    | Returned db' =>
        set_backend (fun b =>
          {| db := db';
             accepts := accepts b;
             server_now := server_now b;
             generated := S (generated b) |});;
        ret false
    | Raised _ => ret true
    end
  else ret true.

(** *** The methods of [LocationTrackerService] *)

Definition requestPermissions : M bool :=
  await foregroundStatus <- requestForegroundPermissionsAsync;
  if negb (is_granted foregroundStatus) then
    console_log error "Foreground location permission denied";;
    ret false
  else
    await backgroundStatus <- requestBackgroundPermissionsAsync;
    when (negb (is_granted backgroundStatus))
      (console_log warn
         "Background location permission denied - tracking will only work in foreground");;
    ret true.

Definition sendLocationUpdate (location : LocationObject) : M unit :=
  await session <- gets (fun w => currentSession (service w));
  match session with
  | None => ret tt
  | Some session =>
      await err <- insert_delivery_location session (coords location);
      when err (console_log error "Failed to send location update:")
  end.

Definition startTracking (session : TrackingSession) : M bool :=
  await tracking <- gets (fun w => isTracking (service w));
  if tracking then
    console_log warn "Already tracking";;
    ret true
  else
    await hasPermission <- requestPermissions;
    if negb hasPermission then ret false
    else
      set_service (fun s =>
        {| currentSession := Some session;
           isTracking := isTracking s;
           foregroundSubscription := foregroundSubscription s |});;
      await now <- new_Date;
      await updateError <-
        update_outgoing_delivery (mark_in_transit now) (deliveryId session);
      when updateError
        (console_log error "Failed to update delivery status:");;
      await subscription <- watchPositionAsync;
      set_service (fun s =>
        {| currentSession := currentSession s;
           isTracking := isTracking s;
           foregroundSubscription := Some subscription |});;
      await backgroundStatus <- getBackgroundPermissionsAsync;
      when (is_granted backgroundStatus) startLocationUpdatesAsync;;
      set_service (fun s =>
        {| currentSession := currentSession s;
           isTracking := true;
           foregroundSubscription := foregroundSubscription s |});;
      ret true.

Definition stopTracking : M unit :=
  await tracking <- gets (fun w => isTracking (service w));
  if negb tracking then ret tt
  else
    await subscription <- gets (fun w => foregroundSubscription (service w));
    match subscription with
    | Some h =>
        remove h;;
        set_service (fun s =>
          {| currentSession := currentSession s;
             isTracking := isTracking s;
             foregroundSubscription := None |})
    | None => ret tt
    end;;
    await isTaskRunning <- isTaskRegisteredAsync;
    when isTaskRunning stopLocationUpdatesAsync;;
    await session <- gets (fun w => currentSession (service w));
    match session with
    | Some session =>
        await now <- new_Date;
        await err <-
          update_outgoing_delivery (mark_delivered now) (deliveryId session);
        when err (console_log error "Failed to update delivery status:")
    | None => ret tt
    end;;
    set_service (fun s =>
      {| currentSession := None;
         isTracking := false;
         foregroundSubscription := foregroundSubscription s |}).

(** The callback given to [watchPositionAsync], run for a subscription
    that is live. *)
Definition on_position (h : nat) (location : LocationObject) : M unit :=
  await live <- gets (fun w => bool_decide (h ∈ watchers (device w)));
  when live (sendLocationUpdate location).

(** The task defined for [LOCATION_TASK_NAME]. *)
Definition background_task (data : option (list LocationObject))
    (err : option string) : M unit :=
  match err with
  | Some _ => console_log error "Background location error:"
  | None =>
      match data with
      | Some (location :: _) => sendLocationUpdate location
      | _ => ret tt
      end
  end.

(** *** Statements about the sampler *)

(** The sentence of the specification on a start that is let through:
    if the delivery of the session exists, then after [startTracking] it is
    [in_transit] and has a time of start. *)
Definition start_marks_in_transit (session : TrackingSession) (w : World)
    : Prop :=
  is_Some (Sql.outgoing_deliveries (db (backend w)) !! deliveryId session) ->
  exists od,
    Sql.outgoing_deliveries (db (backend (snd (startTracking session w))))
      !! deliveryId session = Some od /\
    Sql.tracking_status od = Some Sql.in_transit /\
    is_Some (Sql.tracking_started_at od).

(** The sentence of the specification on a stop with an active session:
    if the delivery of the session exists, then after [stopTracking] it is
    [delivered] and has a time of end. *)
Definition stop_marks_delivered (session : TrackingSession) (w : World)
    : Prop :=
  is_Some (Sql.outgoing_deliveries (db (backend w)) !! deliveryId session) ->
  exists od,
    Sql.outgoing_deliveries (db (backend (snd (stopTracking w))))
      !! deliveryId session = Some od /\
    Sql.tracking_status od = Some Sql.delivered /\
    is_Some (Sql.tracking_ended_at od).

End Tracker.

(** ** The tracking subscriber of the web client *)

Module Subscriber.

(** *** [getTrackingStatus] *)

(** An optional parameter of type [T | null]. *)
Inductive optional (A : Type) : Type :=
  | undefined
  | null
  | defined (a : A).
Arguments undefined {A}.
Arguments null {A}.
Arguments defined {A} a.

(** A JavaScript [number]. *)
Inductive number : Type :=
  | NaN
  | NegInfinity
  | Finite (q : Q)
  | Infinity.

(** [x < y] on numbers, for a finite [y]. *)
Definition number_ltb (x : number) (y : Q) : bool :=
  match x with
  | NaN => false
  | NegInfinity => true
  | Finite q => if Qlt_le_dec q y then true else false
  | Infinity => false
  end.

(** The truth value of a [string | null | undefined] in a condition. *)
Definition truthy (s : optional string) : bool :=
  match s with
  | defined (String _ _) => true
  | _ => false
  end.

Inductive TrackingStatus : Type :=
  | not_started
  | tracking
  | arriving_soon
  | arrived.

Definition getTrackingStatus (trackingStartedAt trackingEndedAt : optional string)
    (distanceKm : optional number) : TrackingStatus :=
  if truthy trackingEndedAt then arrived
  else if negb (truthy trackingStartedAt) then not_started
  else
    match distanceKm with
    | defined d => if number_ltb d 0.5 then arriving_soon else tracking
    | _ => tracking
    end.

(** A timestamp is set: the parameter is a string that is not empty
    ([null], [undefined] and the empty string, which is no timestamp, count
    as absent). *)
Definition is_set (x : optional string) : Prop :=
  exists t, x = defined t /\ t <> "".

(** *** [useDeliveryLocation] *)

Record Coordinates : Type := { lat : Q; lng : Q }.

(** [DeliveryTrackingInfo], without the joined [drivers] row. *)
Record DeliveryTrackingInfo : Type := {
  delivery_id : string;
  driver_id : option string;
  current_latitude : option Q;
  current_longitude : option Q;
  current_speed : option Q;
  current_heading : option Q;
  last_location_update : option Z;
  tracking_started_at : option Z;
  tracking_ended_at : option Z;
  estimated_arrival_time : option Z;
  route_distance_km : option Q;
  route_duration_minutes : option Z
}.

(** The state variables of the hook. *)
Record State : Type := {
  currentLocation : option Coordinates;
  trackingInfo : option DeliveryTrackingInfo;
  locationHistory : list Sql.delivery_location;
  isLoading : bool;
  isConnected : bool;
  error : option string;
  lastUpdate : option Z
}.

Definition initial : State :=
  {| currentLocation := None;
     trackingInfo := None;
     locationHistory := [];
     isLoading := true;
     isConnected := false;
     error := None;
     lastUpdate := None |}.

(** The order [recorded_at DESC]. *)
Definition recorded_desc (a b : Sql.delivery_location) : Prop :=
  Sql.recorded_at b <= Sql.recorded_at a.

#[global] Instance recorded_desc_dec : RelDecision recorded_desc :=
  fun a b => decide (Sql.recorded_at b <= Sql.recorded_at a).

(** [.from('delivery_locations').select('*').eq('delivery_id', deliveryId)
    .order('recorded_at', { ascending: false }).limit(100)]. *)
Definition select_history (deliveryId : string) (d : Sql.database)
    : list Sql.delivery_location :=
  take 100
    (merge_sort recorded_desc
       (filter (fun r => Sql.delivery_id r = deliveryId)
               (Sql.delivery_locations d))).

Definition tracking_info_of (id : string) (delivery : Sql.outgoing_delivery)
    : DeliveryTrackingInfo :=
  {| delivery_id := id;
     driver_id := Sql.od_driver_id delivery;
     current_latitude := Sql.current_latitude delivery;
     current_longitude := Sql.current_longitude delivery;
     current_speed := Sql.current_speed delivery;
     current_heading := Sql.current_heading delivery;
     last_location_update := Sql.last_location_update delivery;
     tracking_started_at := Sql.tracking_started_at delivery;
     tracking_ended_at := Sql.tracking_ended_at delivery;
     estimated_arrival_time := Sql.estimated_arrival_time delivery;
     route_distance_km := Sql.route_distance_km delivery;
     route_duration_minutes := Sql.route_duration_minutes delivery |}.

(** [new Date(text)] of the text of a [timestamptz]: a [Date] counts
    milliseconds, the microseconds are cut off. *)
Definition new_Date (t : Z) : Z := t `div` 1000.

(** The truth value of a nullable number in a condition. *)
Definition truthy_number (x : option Q) : bool :=
  match x with
  | Some q => negb (Qeq_bool q 0)
  | None => false
  end.

(** The [catch] and [finally] blocks of [fetchTrackingData]. *)
Definition fetch_failed (st : State) : State :=
  {| currentLocation := currentLocation st;
     trackingInfo := trackingInfo st;
     locationHistory := locationHistory st;
     isLoading := false;
     isConnected := isConnected st;
     error := Some "Failed to load tracking data";
     lastUpdate := lastUpdate st |}.

(** [fetchTrackingData] against the datastore [d]; [ok1] and [ok2] tell
    whether the first and the second request come back without an error of
    the transport. Nothing is done without a [deliveryId] (undefined or the
    empty string). *)
Definition fetchTrackingData (deliveryId : option string) (d : Sql.database)
    (ok1 ok2 : bool) (st : State) : State :=
  match deliveryId with
  | None | Some "" => st
  | Some id =>
      let st :=
        {| currentLocation := currentLocation st;
           trackingInfo := trackingInfo st;
           locationHistory := locationHistory st;
           isLoading := true;
           isConnected := isConnected st;
           error := None;
           lastUpdate := lastUpdate st |} in
      match (if ok1 then Sql.outgoing_deliveries d !! id else None) with
      | None => fetch_failed st
      | Some delivery =>
          let located :=
            truthy_number (Sql.current_latitude delivery)
            && truthy_number (Sql.current_longitude delivery) in
          let st :=
            {| currentLocation :=
                 match Sql.current_latitude delivery,
                       Sql.current_longitude delivery with
                 | Some la, Some lo =>
                     if located then Some {| lat := la; lng := lo |}
                     else currentLocation st
                 | _, _ => currentLocation st
                 end;
               trackingInfo := Some (tracking_info_of id delivery);
               locationHistory := locationHistory st;
               isLoading := isLoading st;
               isConnected := isConnected st;
               error := error st;
               lastUpdate :=
                 if located
                 then new_Date <$> Sql.last_location_update delivery
                 else lastUpdate st |} in
          if ok2 then
            {| currentLocation := currentLocation st;
               trackingInfo := trackingInfo st;
               locationHistory := select_history id d;
               isLoading := false;
               isConnected := isConnected st;
               error := error st;
               lastUpdate := lastUpdate st |}
          else fetch_failed st
      end
  end.

(** The handler of [INSERT] on [delivery_locations]. *)
Definition on_insert (newLocation : Sql.delivery_location) (st : State)
    : State :=
  {| currentLocation :=
       Some {| lat := Sql.latitude newLocation;
               lng := Sql.longitude newLocation |};
     trackingInfo :=
       (fun prev =>
          {| delivery_id := delivery_id prev;
             driver_id := driver_id prev;
             current_latitude := Some (Sql.latitude newLocation);
             current_longitude := Some (Sql.longitude newLocation);
             current_speed := Sql.speed newLocation;
             current_heading := Sql.heading newLocation;
             last_location_update := Some (Sql.recorded_at newLocation);
             tracking_started_at := tracking_started_at prev;
             tracking_ended_at := tracking_ended_at prev;
             estimated_arrival_time := estimated_arrival_time prev;
             route_distance_km := route_distance_km prev;
             route_duration_minutes := route_duration_minutes prev |})
       <$> trackingInfo st;
     locationHistory := take 100 (newLocation :: locationHistory st);
     isLoading := isLoading st;
     isConnected := isConnected st;
     error := error st;
     lastUpdate := Some (new_Date (Sql.recorded_at newLocation)) |}.

(** The handler of [UPDATE] on [outgoing_deliveries]. *)
Definition on_update (updated : Sql.outgoing_delivery) (st : State) : State :=
  {| currentLocation := currentLocation st;
     trackingInfo :=
       (fun prev =>
          {| delivery_id := delivery_id prev;
             driver_id := Sql.od_driver_id updated;
             current_latitude := current_latitude prev;
             current_longitude := current_longitude prev;
             current_speed := current_speed prev;
             current_heading := current_heading prev;
             last_location_update := last_location_update prev;
             tracking_started_at := Sql.tracking_started_at updated;
             tracking_ended_at := Sql.tracking_ended_at updated;
             estimated_arrival_time := Sql.estimated_arrival_time updated;
             route_distance_km := route_distance_km prev;
             route_duration_minutes := route_duration_minutes prev |})
       <$> trackingInfo st;
     locationHistory := locationHistory st;
     isLoading := isLoading st;
     isConnected := isConnected st;
     error := error st;
     lastUpdate := lastUpdate st |}.

Definition set_connected (b : bool) (st : State) : State :=
  {| currentLocation := currentLocation st;
     trackingInfo := trackingInfo st;
     locationHistory := locationHistory st;
     isLoading := isLoading st;
     isConnected := b;
     error := error st;
     lastUpdate := lastUpdate st |}.

(** What reaches the hook for a delivery: the end of a fetch, a row
    inserted, a delivery updated, a change of the channel's status, the
    cleanup of the effect. *)
Inductive event : Type :=
  | Fetched (d : Sql.database) (ok1 ok2 : bool)
  | Inserted (newLocation : Sql.delivery_location)
  | Updated (updated : Sql.outgoing_delivery)
  | Status (subscribed : bool)
  | Cleanup.

Definition step (deliveryId : string) (st : State) (e : event) : State :=
  match e with
  | Fetched d ok1 ok2 => fetchTrackingData (Some deliveryId) d ok1 ok2 st
  | Inserted newLocation => on_insert newLocation st
  | Updated updated => on_update updated st
  | Status subscribed => set_connected subscribed st
  | Cleanup => set_connected false st
  end.

Definition run (deliveryId : string) (events : list event) : State :=
  foldl (step deliveryId) initial events.

End Subscriber.

(** ** Concrete data *)

Module Examples.

(** A delivery to restaurant [r1] on which tracking has not started. *)
Definition od_pending : Sql.outgoing_delivery :=
  {| Sql.supplier_id := "s1";
     Sql.restaurant_id := "r1";
     Sql.status := "sent";
     Sql.tracking_status := Some Sql.pending;
     Sql.od_driver_id := Some "drv";
     Sql.current_latitude := None;
     Sql.current_longitude := None;
     Sql.current_speed := None;
     Sql.current_heading := None;
     Sql.last_location_update := None;
     Sql.tracking_started_at := None;
     Sql.tracking_ended_at := None;
     Sql.estimated_arrival_time := None;
     Sql.route_distance_km := None;
     Sql.route_duration_minutes := None |}.

Definition r1 : Sql.restaurant :=
  {| Sql.r_latitude := Some 60.1699%Q;
     Sql.r_longitude := Some 24.9384%Q;
     Sql.delivery_instructions := None |}.

(** One driver, one restaurant, one delivery, no fix yet. *)
Definition db1 : Sql.database :=
  {| Sql.drivers := {["drv"]};
     Sql.restaurants := {["r1" := r1]};
     Sql.outgoing_deliveries := {["d1" := od_pending]};
     Sql.delivery_locations := [] |}.

(** A fix of delivery [d1]. *)
Definition fix_d1 (id : string) (lat lon : Q) (spd : option Q) (t : Z)
    : Sql.delivery_location :=
  {| Sql.id := id;
     Sql.delivery_id := "d1";
     Sql.driver_id := Some "drv";
     Sql.latitude := lat;
     Sql.longitude := lon;
     Sql.accuracy := None;
     Sql.altitude := None;
     Sql.speed := spd;
     Sql.heading := None;
     Sql.battery_level := None;
     Sql.recorded_at := t;
     Sql.created_at := 30 |}.

(** Two fixes of [d1]: the one recorded at 20 is sent first, the one
    recorded at 10 arrives after it. *)
Definition fix_recorded_20 : Sql.delivery_location :=
  fix_d1 "a" 60.2 24.9 (Some 12%Q) 20.

Definition fix_recorded_10 : Sql.delivery_location :=
  fix_d1 "b" 60.1 24.8 None 10.

(** Delivery [d1] with a snapshot. *)
Definition od_located (lat lon spd : option Q) : Sql.outgoing_delivery :=
  {| Sql.supplier_id := "s1";
     Sql.restaurant_id := "r1";
     Sql.status := "sent";
     Sql.tracking_status := Some Sql.in_transit;
     Sql.od_driver_id := Some "drv";
     Sql.current_latitude := lat;
     Sql.current_longitude := lon;
     Sql.current_speed := spd;
     Sql.current_heading := None;
     Sql.last_location_update := Some 20;
     Sql.tracking_started_at := Some 5;
     Sql.tracking_ended_at := None;
     Sql.estimated_arrival_time := None;
     Sql.route_distance_km := None;
     Sql.route_duration_minutes := None |}.

Definition db_located (lat lon spd : option Q) : Sql.database :=
  {| Sql.drivers := {["drv"]};
     Sql.restaurants := {["r1" := r1]};
     Sql.outgoing_deliveries := {["d1" := od_located lat lon spd]};
     Sql.delivery_locations := [] |}.

(** Stand-ins for the double precision functions under which every
    distance is 10 km: the angle [atan2] gives is 5/6371. *)
Definition flat (x : Q) : Q := 0%Q.
Definition same (x : Q) : Q := x.
Definition angle_for_10_km (y x : Q) : Q := (5 # 6371)%Q.

(** The tracker of a driver who has not started, on a device that gives
    the permissions [fg] and [bg], in front of a datastore that lets
    requests through or not. *)
Definition session1 : Tracker.TrackingSession :=
  {| Tracker.deliveryId := "d1";
     Tracker.driverId := "drv";
     Tracker.restaurantId := "r1" |}.

Definition idle (fg bg : Tracker.PermissionStatus) (accepts : bool)
    : Tracker.World :=
  {| Tracker.service :=
       {| Tracker.currentSession := None;
          Tracker.isTracking := false;
          Tracker.foregroundSubscription := None |};
     Tracker.device :=
       {| Tracker.foregroundStatus := fg;
          Tracker.backgroundStatus := bg;
          Tracker.watchers := ∅;
          Tracker.next_handle := 0;
          Tracker.task_registered := false |};
     Tracker.backend :=
       {| Tracker.db := db1;
          Tracker.accepts := accepts;
          Tracker.server_now := 1000;
          Tracker.generated := 0 |};
     Tracker.clock := 990;
     Tracker.console := [] |}.

(** The same tracker after [startTracking(session1)]. *)
Definition started (fg bg : Tracker.PermissionStatus) (accepts : bool)
    : Tracker.World :=
  snd (Tracker.startTracking session1 (idle fg bg accepts)).

(** The datastore stops answering; the driver completes the delivery. *)
Definition cut_off (w : Tracker.World) : Tracker.World :=
  snd (Tracker.set_backend (fun b =>
         {| Tracker.db := Tracker.db b;
            Tracker.accepts := false;
            Tracker.server_now := Tracker.server_now b;
            Tracker.generated := Tracker.generated b |}) w).

Definition here : Tracker.LocationObject :=
  {| Tracker.coords :=
       {| Tracker.latitude := 60.17;
          Tracker.longitude := 24.94;
          Tracker.altitude := None;
          Tracker.accuracy := Some 5%Q;
          Tracker.speed := Some 3%Q;
          Tracker.heading := None |};
     Tracker.timestamp := 995 |}.

(** A fix whose speed does not fit the column [speed decimal(6, 2)]. *)
Definition too_fast : Tracker.LocationObject :=
  {| Tracker.coords :=
       {| Tracker.latitude := 60.17;
          Tracker.longitude := 24.94;
          Tracker.altitude := None;
          Tracker.accuracy := Some 5%Q;
          Tracker.speed := Some 10000%Q;
          Tracker.heading := None |};
     Tracker.timestamp := 996 |}.

End Examples.

(** ** The keys of the log *)

(** The identifiers of the stored fixes are distinct, and each stored fix
    refers to a delivery and, when it names one, to a driver that exist. *)
Definition log_integrity (db : Sql.database) : Prop :=
  NoDup (Sql.id <$> Sql.delivery_locations db) ∧
  ∀ f, f ∈ Sql.delivery_locations db →
       is_Some (Sql.outgoing_deliveries db !! Sql.delivery_id f) ∧
       ∀ drv, Sql.driver_id f = Some drv → drv ∈ Sql.drivers db.

(** ** The retention policy *)

Module Retention.

(** [status IN ('delivered', 'confirmed', 'cancelled')]. *)
Definition terminal (status : string) : bool :=
  bool_decide (status ∈ ["delivered"; "confirmed"; "cancelled"]).

(** [interval '30 days'], in microseconds (days of 24 hours, as in the
    time zone UTC). *)
Definition thirty_days : Z := 30 * 86400 * 1000000.

(** The condition of the [DELETE] on a row of [delivery_locations]. *)
Definition purged (now : Z) (d : Sql.database) (f : Sql.delivery_location)
    : bool :=
  bool_decide (Sql.recorded_at f < now - thirty_days)
  && match Sql.outgoing_deliveries d !! Sql.delivery_id f with
     | Some od => terminal (Sql.status od)
     | None => false
     end.

(** [cleanup_old_location_data()], with the value of [now()]. *)
Definition cleanup_old_location_data (now : Z) (d : Sql.database)
    : Sql.database :=
  {| Sql.drivers := Sql.drivers d;
     Sql.restaurants := Sql.restaurants d;
     Sql.outgoing_deliveries := Sql.outgoing_deliveries d;
     Sql.delivery_locations :=
       filter (fun f => purged now d f = false) (Sql.delivery_locations d) |}.

End Retention.

(** ** The life of the sampler *)

Module Drive.

Import Tracker.

Definition set_clock (t : Z) : M unit :=
  fun w => (tt, {| service := service w; device := device w;
                   backend := backend w; clock := t;
                   console := console w |}).

(** What happens to the sampler: the calls of the screen, the callbacks
    of the operating system, and the changes around it (the permissions
    the user gives, the datastore answering or not, time passing). *)
Inductive op : Type :=
  | StartTracking (session : TrackingSession)
  | StopTracking
  | Position (h : nat) (location : LocationObject)
  | Background (data : option (list LocationObject)) (err : option string)
  | Permissions (fg bg : PermissionStatus)
  | Datastore (lets_through : bool)
  | Clocks (device_clock server_clock : Z).

Definition perform (o : op) : M unit :=
  match o with
  | StartTracking session => await _ <- startTracking session; ret tt
  | StopTracking => stopTracking
  | Position h location => on_position h location
  | Background data err => background_task data err
  | Permissions fg bg =>
      set_device (fun d =>
        {| foregroundStatus := fg;
           backgroundStatus := bg;
           watchers := watchers d;
           next_handle := next_handle d;
           task_registered := task_registered d |})
  | Datastore lets_through =>
      set_backend (fun b =>
        {| db := db b;
           accepts := lets_through;
           server_now := server_now b;
           generated := generated b |})
  | Clocks device_clock server_clock =>
      set_clock device_clock;;
      set_backend (fun b =>
        {| db := db b;
           accepts := accepts b;
           server_now := server_clock;
           generated := generated b |})
  end.

Definition run_ops (ops : list op) (w : World) : World :=
  foldl (fun w o => snd (perform o w)) w ops.

(** The sessions given to [startTracking] in a sequence. *)
Definition sessions_of (ops : list op) : list TrackingSession :=
  omap (fun o => match o with
                 | StartTracking session => Some session
                 | _ => None
                 end) ops.

End Drive.

(** ** What the web client shows *)

Module View.

Import Subscriber.

(** [distanceRemaining] and [estimatedArrival] of the hook. *)
Definition distanceRemaining (st : State) : option Q :=
  trackingInfo st ≫= route_distance_km.

Definition estimatedArrival (st : State) : option Z :=
  new_Date <$> (trackingInfo st ≫= estimated_arrival_time).

(** [routePath] of [LiveDeliveryMap]: the history, oldest first. *)
Definition routePath (st : State) : list (Q * Q) :=
  reverse ((fun loc => (Sql.latitude loc, Sql.longitude loc))
             <$> locationHistory st).

(** [mapCenter] of [LiveDeliveryMap]. *)
Definition mapCenter (restaurantLocation : option Coordinates) (st : State)
    : Q * Q :=
  match currentLocation st with
  | Some c => (lat c, lng c)
  | None =>
      match restaurantLocation with
      | Some r => (lat r, lng r)
      | None => (60.1699, 24.9384)%Q
      end
  end.

(** The names of the statuses, as the strings they are. *)
Definition status_name (s : TrackingStatus) : string :=
  match s with
  | not_started => "not_started"
  | tracking => "tracking"
  | arriving_soon => "arriving_soon"
  | arrived => "arrived"
  end.

(** The values of the column [tracking_status], as the strings they are. *)
Definition column_value (s : option Sql.tracking_status_t) : optional string :=
  match s with
  | None => null
  | Some Sql.pending => defined "pending"
  | Some Sql.in_transit => defined "in_transit"
  | Some Sql.delivered => defined "delivered"
  end.

Inductive icon : Type := Truck | MapPin | CheckCircle2 | Clock.

(** What [TrackingStatusBadge] renders: the [Badge] with its variant or
    class, the icon with its class, and the text. *)
Record badge : Type := {
  variant : option string;
  className : option string;
  badge_icon : icon;
  icon_className : string;
  text : string
}.

Definition TrackingStatusBadge (status : optional string) : badge :=
  let pending_badge :=
    {| variant := Some "secondary";
       className := None;
       badge_icon := Clock;
       icon_className := "w-3 h-3 mr-1";
       text := "Pending" |} in
  match status with
  | defined s =>
      if String.eqb s "tracking" then
        {| variant := None;
           className := Some "bg-[#009EE0] text-white";
           badge_icon := Truck;
           icon_className := "w-3 h-3 mr-1 animate-pulse";
           text := "In Transit" |}
      else if String.eqb s "arriving_soon" then
        {| variant := None;
           className := Some "bg-amber-500 text-white";
           badge_icon := MapPin;
           icon_className := "w-3 h-3 mr-1";
           text := "Arriving Soon" |}
      else if String.eqb s "arrived" then
        {| variant := None;
           className := Some "bg-green-500 text-white";
           badge_icon := CheckCircle2;
           icon_className := "w-3 h-3 mr-1";
           text := "Arrived" |}
      else pending_badge
  | _ => pending_badge
  end.

Section Sheet.

(** The text of a [timestamptz] in a row sent to the client. *)
Variable timestamp_text : Z -> string.

(** [trackingInfo?.field], for a field that holds a time. *)
Definition time_field (f : DeliveryTrackingInfo -> option Z) (st : State)
    : optional string :=
  match trackingInfo st with
  | None => undefined
  | Some info =>
      match f info with
      | None => null
      | Some t => defined (timestamp_text t)
      end
  end.

(** [trackingStatus] of [DeliveryTrackingSheet]. *)
Definition trackingStatus (st : State) : TrackingStatus :=
  getTrackingStatus
    (time_field tracking_started_at st)
    (time_field tracking_ended_at st)
    match distanceRemaining st with
    | Some q => defined (Finite q)
    | None => null
    end.

(** The badge in the header of the sheet. *)
Definition sheet_badge (st : State) : badge :=
  TrackingStatusBadge (defined (status_name (trackingStatus st))).

End Sheet.

(** The badge of a delivery in the list of [ActiveDeliveriesPage], which
    is given the column [tracking_status]. *)
Definition list_badge (delivery : Sql.outgoing_delivery) : badge :=
  TrackingStatusBadge (column_value (Sql.tracking_status delivery)).

End View.

(** ** More concrete data *)

Module Scenarios.

(** A stand-in for [atan2] that is zero on a zero first argument. *)
Definition opposite_side (y x : Q) : Q := y.

(** Delivery [d1] is closed ([status] delivered) and has two fixes,
    recorded at the times 20 and 3000000000000 (microseconds). *)
Definition od_closed : Sql.outgoing_delivery :=
  {| Sql.supplier_id := "s1";
     Sql.restaurant_id := "r1";
     Sql.status := "delivered";
     Sql.tracking_status := Some Sql.delivered;
     Sql.od_driver_id := Some "drv";
     Sql.current_latitude := Some 60.2%Q;
     Sql.current_longitude := Some 24.9%Q;
     Sql.current_speed := None;
     Sql.current_heading := None;
     Sql.last_location_update := Some 3000000000000;
     Sql.tracking_started_at := Some 5;
     Sql.tracking_ended_at := Some 3000000000001;
     Sql.estimated_arrival_time := None;
     Sql.route_distance_km := None;
     Sql.route_duration_minutes := None |}.

Definition db_closed : Sql.database :=
  {| Sql.drivers := {["drv"]};
     Sql.restaurants := {["r1" := Examples.r1]};
     Sql.outgoing_deliveries := {["d1" := od_closed]};
     Sql.delivery_locations :=
       [Examples.fix_recorded_20;
        Examples.fix_d1 "c" 60.2 24.9 None 3000000000000] |}.

(** A text for a time, never empty. *)
Definition stamp (t : Z) : string := "T" +:+ pretty t.

(** The hook of delivery [d1] after its first fetch from [Examples.db1]. *)
Definition loaded : Subscriber.State :=
  Subscriber.fetchTrackingData (Some "d1") Examples.db1 true true
    Subscriber.initial.

End Scenarios.

(** * Properties *)

(** ** The projector *)

Section Projector.

Import Sql.

Implicit Types (db : database) (row f g : delivery_location) (d : string).

Lemma snapshot_of_set_current_location row od :
  snapshot_of (set_current_location row od) = fix_fields row.
Proof. reflexivity. Qed.

(** What a successful insert does to the two tables. *)
Lemma insert_delivery_location_Returned row db db' :
  insert_delivery_location row db = Returned db' →
  is_Some (outgoing_deliveries db !! delivery_id row) ∧
  delivery_locations db' = delivery_locations db ++ [row] ∧
  outgoing_deliveries db' =
    alter (set_current_location row) (delivery_id row)
          (outgoing_deliveries db).
Proof.
  unfold insert_delivery_location.
  case_bool_decide as Hid; [discriminate |].
  case_bool_decide as Hfk; [discriminate |].
  destruct (match driver_id row with
            | None => true
            | Some drv => bool_decide (drv ∈ drivers db)
            end); [| discriminate].
  intros [= <-]. simpl. split_and!; try reflexivity.
  destruct (outgoing_deliveries db !! delivery_id row); [eauto | done].
Qed.

Lemma insert_all_app rows1 rows2 db :
  insert_all (rows1 ++ rows2) db =
  let! db1 := insert_all rows1 db in insert_all rows2 db1.
Proof.
  revert db. induction rows1 as [| row rows1 IH]; intros db; simpl.
  - reflexivity.
  - destruct (insert_delivery_location row db) as [db1 | e]; simpl.
    + apply IH.
    + reflexivity.
Qed.

Lemma fixes_of_snoc d log row :
  fixes_of d (log ++ [row]) =
  if decide (delivery_id row = d) then fixes_of d log ++ [row]
  else fixes_of d log.
Proof.
  unfold fixes_of. rewrite filter_app.
  destruct (decide (delivery_id row = d)) as [Heq | Hne].
  - by rewrite filter_cons_True.
  - rewrite filter_cons_False by done. by rewrite filter_nil, app_nil_r.
Qed.

Lemma ingest_follows_insertion db row :
  snapshot_follows_insertion db → snapshot_follows_insertion (ingest db row).
Proof.
  intros Hinv. unfold ingest.
  destruct (insert_delivery_location row db) as [db' | e] eqn:Hins;
    [| exact Hinv].
  apply insert_delivery_location_Returned in Hins as (_ & Hlog & Hods).
  intros d od Hod. rewrite Hlog, fixes_of_snoc.
  rewrite Hods in Hod.
  destruct (decide (delivery_id row = d)) as [<- | Hne].
  - rewrite last_snoc. rewrite lookup_alter_eq in Hod.
    destruct (outgoing_deliveries db !! delivery_id row) as [od0 |];
      simpl in Hod; [| discriminate].
    injection Hod as <-. apply snapshot_of_set_current_location.
  - rewrite lookup_alter_ne in Hod by done. by apply Hinv.
Qed.

Lemma ingest_all_follows_insertion rows db :
  snapshot_follows_insertion db →
  snapshot_follows_insertion (ingest_all rows db).
Proof.
  unfold ingest_all. revert db.
  induction rows as [| row rows IH]; intros db Hinv; simpl.
  - exact Hinv.
  - by apply IH, ingest_follows_insertion.
Qed.

Lemma fresh_follows_insertion db : fresh db → snapshot_follows_insertion db.
Proof.
  intros [Hlog Hnone] d od Hod. rewrite Hlog. simpl. by eapply Hnone.
Qed.

Lemma appended_app db0 db new :
  delivery_locations db = delivery_locations db0 ++ new →
  appended db0 db = new.
Proof. intros E. unfold appended. rewrite E. apply drop_app_length. Qed.

Lemma ingest_follows_appended db0 db row :
  snapshot_follows_appended db0 db →
  snapshot_follows_appended db0 (ingest db row).
Proof.
  intros [Hlog0 Hinv]. unfold ingest.
  destruct (insert_delivery_location row db) as [db' | e] eqn:Hins;
    [| by split].
  apply insert_delivery_location_Returned in Hins as (_ & Hlog & Hods).
  assert (Hnew : appended db0 db' = appended db0 db ++ [row]).
  { apply appended_app. rewrite Hlog, Hlog0 at 1. by rewrite app_assoc. }
  split.
  - rewrite Hnew, Hlog, Hlog0 at 1. by rewrite app_assoc.
  - intros d od Hod. rewrite Hnew, fixes_of_snoc.
    rewrite Hods in Hod.
    destruct (decide (delivery_id row = d)) as [<- | Hne].
    + rewrite last_snoc. rewrite lookup_alter_eq in Hod.
      destruct (outgoing_deliveries db !! delivery_id row) as [od0 |];
        simpl in Hod; [| discriminate].
      injection Hod as <-. apply snapshot_of_set_current_location.
    + rewrite lookup_alter_ne in Hod by done. by apply Hinv.
Qed.

Lemma ingest_all_follows_appended rows db0 db :
  snapshot_follows_appended db0 db →
  snapshot_follows_appended db0 (ingest_all rows db).
Proof.
  unfold ingest_all. revert db.
  induction rows as [| row rows IH]; intros db Hinv; simpl.
  - exact Hinv.
  - by apply IH, ingest_follows_appended.
Qed.

Lemma snapshot_follows_appended_refl db : snapshot_follows_appended db db.
Proof.
  assert (Hnil : appended db db = [])
    by (apply appended_app; by rewrite app_nil_r).
  split.
  - by rewrite Hnil, app_nil_r.
  - intros d od Hod. by rewrite Hnil.
Qed.

(** The last fix of a delivery in a log whose fixes of the delivery come
    in the order of their times of recording is the one recorded last. *)
Lemma last_latest_recorded d log f :
  last (fixes_of d log) = Some f →
  recorded_in_order_for d log →
  latest_recorded d log f.
Proof.
  intros Hlast Hord.
  assert (Hf : f ∈ fixes_of d log).
  { rewrite last_lookup in Hlast. by eapply list_elem_of_lookup_2. }
  apply list_elem_of_filter in Hf as [Hd Hf].
  split_and!; [exact Hf | exact Hd |].
  intros g Hg Hgd.
  assert (Hg' : g ∈ fixes_of d log) by by apply list_elem_of_filter.
  apply list_elem_of_lookup in Hg' as [i Hi].
  rewrite last_lookup in Hlast.
  apply (Hord i (pred (length (fixes_of d log))) g f); [| done | done].
  apply lookup_lt_Some in Hi. lia.
Qed.

End Projector.

Section Snapshot.

Import Sql.

(** C2. After a sequence of fixes was inserted, the snapshot columns of
    the delivery of the fix inserted last ([current_latitude],
    [current_longitude], [current_speed], [current_heading],
    [last_location_update]) hold the values of that fix, whatever the
    times of recording of the fixes are: the last write wins. *)
Theorem snapshot_is_last_inserted (db db' : database)
    (rows : list delivery_location) (f : delivery_location) :
  last rows = Some f →
  insert_all rows db = Returned db' →
  ∃ od,
    outgoing_deliveries db' !! delivery_id f = Some od ∧
    current_latitude od = Some (latitude f) ∧
    current_longitude od = Some (longitude f) ∧
    current_speed od = speed f ∧
    current_heading od = heading f ∧
    last_location_update od = Some (recorded_at f).
Proof.
  intros [rows' ->]%last_Some. rewrite insert_all_app.
  destruct (insert_all rows' db) as [db1 | e]; simpl; [| discriminate].
  destruct (insert_delivery_location f db1) as [db2 | e] eqn:Hins;
    simpl; [| discriminate].
  intros [= <-].
  apply insert_delivery_location_Returned in Hins as ([od Hod] & _ & ->).
  exists (set_current_location f od). split.
  - by rewrite lookup_alter_eq, Hod.
  - by simpl.
Qed.

Lemma snapshot_is_last_inserted_witness :
  insert_all [Examples.fix_recorded_20; Examples.fix_recorded_10]
             Examples.db1
    = Returned
        (ingest_all [Examples.fix_recorded_20; Examples.fix_recorded_10]
                    Examples.db1) ∧
  ∃ od,
    outgoing_deliveries
      (ingest_all [Examples.fix_recorded_20; Examples.fix_recorded_10]
                  Examples.db1) !! "d1" = Some od ∧
    current_latitude od = Some 60.1%Q ∧
    current_longitude od = Some 24.8%Q ∧
    current_speed od = None ∧
    current_heading od = None ∧
    last_location_update od = Some 10.
Proof.
  assert (Hins :
    insert_all [Examples.fix_recorded_20; Examples.fix_recorded_10]
               Examples.db1
    = Returned
        (ingest_all [Examples.fix_recorded_20; Examples.fix_recorded_10]
                    Examples.db1))
    by (vm_compute; reflexivity).
  split; [exact Hins |].
  apply (snapshot_is_last_inserted Examples.db1 _
           [Examples.fix_recorded_20; Examples.fix_recorded_10]
           Examples.fix_recorded_10).
  - reflexivity.
  - exact Hins.
Defined.

(** C1, as the specification states it, fails: after the fix recorded at
    20 and then the fix recorded at 10 were stored for a delivery, its
    snapshot holds the fix recorded at 10. *)
Lemma snapshot_regresses_to_older_fix :
  fresh Examples.db1 ∧
  ¬ snapshot_follows_recorded_at
      (ingest_all [Examples.fix_recorded_20; Examples.fix_recorded_10]
                  Examples.db1).
Proof.
  split.
  - split; [reflexivity |].
    intros d od Hod. simpl in Hod.
    apply lookup_singleton_Some in Hod as [_ <-]. reflexivity.
  - intros H.
    destruct (H "d1" (set_current_location Examples.fix_recorded_10
                                           Examples.od_pending))
      as (f & (Hin & _ & Hmax) & Hsnap).
    + vm_compute. reflexivity.
    + unfold snapshot_present. simpl. eauto.
    + assert (Hlog : delivery_locations
                (ingest_all [Examples.fix_recorded_20;
                             Examples.fix_recorded_10] Examples.db1)
              = [Examples.fix_recorded_20; Examples.fix_recorded_10])
        by (vm_compute; reflexivity).
      rewrite Hlog in Hin, Hmax.
      assert (Hf : recorded_at f = 10) by (by injection Hsnap).
      specialize (Hmax Examples.fix_recorded_20).
      rewrite Hf in Hmax. simpl in Hmax.
      assert (20 <= 10); [| lia].
      apply Hmax; [| reflexivity]. apply list_elem_of_here.
Qed.

(** C1, amended. After any sequence of inserts into any database (those
    that fail change nothing), for each delivery: if the sequence appended
    no fix of the delivery, the row of the delivery is as it was; if it
    appended one, the snapshot is present and is the fix of the delivery
    inserted last, which is the fix with the greatest time of recording
    among those appended for the delivery if the fixes of that delivery
    were appended in the order of their times of recording. From a
    database with no fix and no snapshot, the snapshot of the delivery is
    so present exactly when a fix of the delivery was appended. *)
Theorem snapshot_is_latest_when_in_order (db : database)
    (rows : list delivery_location) (d : string) (od : outgoing_delivery) :
  outgoing_deliveries (ingest_all rows db) !! d = Some od →
  (fixes_of d (appended db (ingest_all rows db)) = [] →
   outgoing_deliveries db !! d = Some od) ∧
  (∀ f,
     last (fixes_of d (appended db (ingest_all rows db))) = Some f →
     snapshot_present od ∧
     snapshot_of od = fix_fields f ∧
     (recorded_in_order_for d (appended db (ingest_all rows db)) →
      latest_recorded d (appended db (ingest_all rows db)) f)) ∧
  (fresh db →
   (snapshot_present od ↔
    fixes_of d (appended db (ingest_all rows db)) ≠ [])).
Proof.
  intros Hod.
  destruct (ingest_all_follows_appended rows db db
              (snapshot_follows_appended_refl db)) as [_ Hinv].
  specialize (Hinv d od Hod).
  destruct (last (fixes_of d (appended db (ingest_all rows db))))
    as [f |] eqn:Hlast.
  - assert (Hne : fixes_of d (appended db (ingest_all rows db)) ≠ []).
    { intros E. by rewrite E in Hlast. }
    assert (Hpresent : snapshot_present od).
    { unfold snapshot_present.
      replace (current_latitude od) with (Some (latitude f))
        by (by injection Hinv). eauto. }
    split_and!.
    + intros E. by rewrite E in Hlast.
    + intros f' [= <-]. split_and!; [done | done |].
      by apply last_latest_recorded.
    + intros _. by split.
  - apply last_None in Hlast. split_and!.
    + done.
    + intros f' Hf'. discriminate.
    + intros [_ Hnone]. split; [| done].
      intros [la Hla]. apply Hnone in Hinv. congruence.
Qed.

Lemma snapshot_is_latest_when_in_order_witness :
  last (fixes_of "d1"
          (appended Examples.db1
             (ingest_all [Examples.fix_recorded_10; Examples.fix_recorded_20]
                         Examples.db1)))
    = Some Examples.fix_recorded_20 ∧
  snapshot_of
    (set_current_location Examples.fix_recorded_20 Examples.od_pending)
    = fix_fields Examples.fix_recorded_20 ∧
  latest_recorded "d1"
    (appended Examples.db1
       (ingest_all [Examples.fix_recorded_10; Examples.fix_recorded_20]
                   Examples.db1))
    Examples.fix_recorded_20.
Proof.
  assert (Hnew : appended Examples.db1
            (ingest_all [Examples.fix_recorded_10; Examples.fix_recorded_20]
                        Examples.db1)
          = [Examples.fix_recorded_10; Examples.fix_recorded_20])
    by (vm_compute; reflexivity).
  assert (Hlast : last (fixes_of "d1"
            (appended Examples.db1
               (ingest_all
                  [Examples.fix_recorded_10; Examples.fix_recorded_20]
                  Examples.db1)))
          = Some Examples.fix_recorded_20)
    by (vm_compute; reflexivity).
  destruct (snapshot_is_latest_when_in_order Examples.db1
              [Examples.fix_recorded_10; Examples.fix_recorded_20] "d1"
              (set_current_location Examples.fix_recorded_20
                                    Examples.od_pending))
    as (_ & Hsome & _).
  - vm_compute. reflexivity.
  - destruct (Hsome _ Hlast) as (_ & Hsnap & Hlatest).
    split_and!; [exact Hlast | exact Hsnap |].
    apply Hlatest. rewrite Hnew.
    intros i j f g Hij Hi Hj.
    destruct i as [| [| i]], j as [| [| j]]; simpl in Hi, Hj;
      simplify_eq; simpl; lia.
Defined.

End Snapshot.

(** ** The ETA estimator *)

Section Eta.

Import Sql.

Variables radians sin cos sqrt : Q → Q.
Variable atan2 : Q → Q → Q.

Local Abbreviation distance := (calculate_distance_km radians sin cos sqrt atan2).
Local Abbreviation eta := (estimate_arrival_time radians sin cos sqrt atan2).

Lemma speed_used_positive (s : option Q) (v : Q) :
  speed_used s v → (1 <= v)%Q.
Proof. destruct 1; [by vm_compute | by vm_compute | done]. Qed.

(** The divisor of the estimate is never zero. *)
Lemma speed_used_divisor (s : option Q) (v : Q) :
  speed_used s v → Qeq_bool (v * 3.6) 0 = false.
Proof.
  intros Hv%speed_used_positive.
  destruct (Qeq_bool (v * 3.6) 0) eqn:E; [| reflexivity].
  apply Qeq_bool_iff, Qmult_integral in E as [H0 | H0].
  - rewrite H0 in Hv. by vm_compute in Hv.
  - by vm_compute in H0.
Qed.

(** The estimator takes the speed as the specification words it. *)
Lemma speed_used_code (s : option Q) (v : Q) :
  speed_used s v →
  match s with
  | None => Some 8.33%Q
  | Some s => if Qlt_le_dec s 1 then Some 8.33%Q else Some s
  end = Some v.
Proof.
  destruct 1 as [| s Hs | s Hs]; [reflexivity | |];
    destruct (Qlt_le_dec s 1) as [Hlt | Hle]; try reflexivity.
  - by apply Qle_not_lt in Hle.
  - by apply Qle_not_lt in Hs.
Qed.

Lemma interval_of_minutes_proper (m m' : Q) :
  (m == m')%Q → interval_of_minutes m = interval_of_minutes m'.
Proof.
  intros E. unfold interval_of_minutes.
  destruct (Qlt_le_dec (m * 60000000) 0) as [Hm | Hm],
           (Qlt_le_dec (m' * 60000000) 0) as [Hm' | Hm'].
  - apply Qfloor_comp. by rewrite E.
  - rewrite E in Hm. by apply Qlt_not_le in Hm.
  - rewrite E in Hm. by apply Qlt_not_le in Hm'.
  - apply Qceiling_comp. by rewrite E.
Qed.

(** C3. For a delivery whose current position and destination are known
    and whose distance was computed as [dist] km, the estimator takes the
    speed [v] (8.33 when the current speed is NULL or below 1), and
    returns [now] plus [(dist / (v * 3.6)) * 60] minutes. For 10 km and
    the speed 8.33 the offset [(10 / (8.33 * 3.6)) * 60] is between 20
    and 20.01 minutes: 1200480192 microseconds. *)
Theorem eta_is_distance_over_speed (now : Z) (db : database) (p : string)
    (od : outgoing_delivery) (r : restaurant)
    (clat clon dlat dlon dist dist' v : Q) :
  outgoing_deliveries db !! p = Some od →
  restaurants db !! restaurant_id od = Some r →
  current_latitude od = Some clat →
  current_longitude od = Some clon →
  r_latitude r = Some dlat →
  r_longitude r = Some dlon →
  distance (Some clat) (Some clon) (Some dlat) (Some dlon)
    = Returned (Some dist) →
  (dist == dist')%Q →
  speed_used (current_speed od) v →
  eta now db p
    = Returned
        (Some (now + interval_of_minutes (dist' / (v * 3.6) * 60)%Q)) ∧
  speed_used (Some 0%Q) 8.33%Q ∧
  interval_of_minutes (10 / (8.33 * 3.6) * 60)%Q = 1200480192 ∧
  (20 <= 10 / (8.33 * 3.6) * 60 <= 20.01)%Q.
Proof.
  intros Hod Hr Hclat Hclon Hdlat Hdlon Hdist Heq Hv.
  split_and!.
  - unfold estimate_arrival_time.
    rewrite Hod. simpl. rewrite Hr. simpl.
    rewrite Hclat, Hclon, Hdlat, Hdlon. simpl.
    rewrite Hdist. simpl.
    rewrite (speed_used_code _ _ Hv). simpl.
    rewrite (speed_used_divisor _ _ Hv). simpl.
    do 3 f_equal. apply interval_of_minutes_proper. by rewrite Heq.
  - by constructor.
  - by vm_compute.
  - by vm_compute.
  - by vm_compute.
Qed.

(** C4. The estimator returns NULL, and raises no error, whenever the
    latitude or the longitude of the current position or of the
    destination is missing (also when the delivery or its restaurant
    does not exist). It reads the database and gives back a value only:
    it has no other effect. *)
Theorem eta_null_without_coordinate (now : Z) (db : database) (p : string) :
  let od := outgoing_deliveries db !! p in
  let r := od ≫= (fun od => restaurants db !! restaurant_id od) in
  od ≫= current_latitude = None ∨ od ≫= current_longitude = None ∨
  r ≫= r_latitude = None ∨ r ≫= r_longitude = None →
  eta now db p = Returned None.
Proof.
  intros od r Hmissing. unfold estimate_arrival_time.
  fold od. fold r.
  destruct (od ≫= current_latitude) as [clat |] eqn:Hclat;
    [| reflexivity].
  destruct (r ≫= r_latitude) as [dlat |] eqn:Hdlat; [| reflexivity].
  simpl.
  assert (Hnull :
    distance (Some clat) (od ≫= current_longitude) (Some dlat)
             (r ≫= r_longitude) = Returned None).
  { unfold calculate_distance_km.
    destruct (od ≫= current_longitude) as [clon |],
             (r ≫= r_longitude) as [dlon |]; try reflexivity.
    by destruct Hmissing as [H | [H | [H | H]]]. }
  rewrite Hnull. simpl. reflexivity.
Qed.

End Eta.

Lemma eta_is_distance_over_speed_witness :
  Sql.estimate_arrival_time Examples.same Examples.flat Examples.flat
    Examples.same Examples.angle_for_10_km 1000
    (Examples.db_located (Some 60.2%Q) (Some 24.9%Q) (Some 0%Q)) "d1"
    = Returned (Some (1000 + 1200480192)).
Proof.
  destruct (eta_is_distance_over_speed Examples.same Examples.flat
              Examples.flat Examples.same Examples.angle_for_10_km 1000
              (Examples.db_located (Some 60.2%Q) (Some 24.9%Q) (Some 0%Q))
              "d1"
              (Examples.od_located (Some 60.2%Q) (Some 24.9%Q) (Some 0%Q))
              Examples.r1 60.2%Q 24.9%Q 60.1699%Q 24.9384%Q
              (6371 * (2 * (5 # 6371)))%Q 10%Q 8.33%Q)
    as (Heta & _ & Hus & _).
  - vm_compute. reflexivity.
  - vm_compute. reflexivity.
  - reflexivity.
  - reflexivity.
  - reflexivity.
  - reflexivity.
  - vm_compute. reflexivity.
  - vm_compute. reflexivity.
  - apply Sql.speed_below_1. vm_compute. reflexivity.
  - rewrite Heta, Hus. reflexivity.
Defined.

Lemma eta_null_without_coordinate_witness :
  Sql.estimate_arrival_time Examples.same Examples.flat Examples.flat
    Examples.same Examples.angle_for_10_km 1000
    (Examples.db_located (Some 60.2%Q) None (Some 7%Q)) "d1"
    = Returned None.
Proof.
  apply (eta_null_without_coordinate Examples.same Examples.flat
           Examples.flat Examples.same Examples.angle_for_10_km 1000
           (Examples.db_located (Some 60.2%Q) None (Some 7%Q)) "d1").
  right. left. vm_compute. reflexivity.
Defined.

(** ** The position sampler *)

Section Sampler.

Import Tracker.

Implicit Types (w : World) (session : TrackingSession).

(** The table of deliveries behind the client. *)
Local Abbreviation deliveries w := (Sql.outgoing_deliveries (db (backend w))).
Local Abbreviation log w := (Sql.delivery_locations (db (backend w))).

(** C6. [startTracking] while tracking returns [true] and is a no-op:
    the fields of the service (the session among them), the
    subscriptions and the background task of the device and the datastore
    are as before, and so is the clock; only the warning is logged. *)
Theorem startTracking_twice_is_noop session w :
  isTracking (service w) = true →
  fst (startTracking session w) = true ∧
  service (snd (startTracking session w)) = service w ∧
  device (snd (startTracking session w)) = device w ∧
  backend (snd (startTracking session w)) = backend w ∧
  clock (snd (startTracking session w)) = clock w.
Proof.
  intros Htracking. unfold startTracking, bind, gets.
  rewrite Htracking. simpl. done.
Qed.

(** C10. [sendLocationUpdate] without a session returns and changes
    nothing: no row is inserted, nothing is logged. *)
Theorem sendLocationUpdate_dropped_without_session location w :
  currentSession (service w) = None →
  sendLocationUpdate location w = (tt, w).
Proof.
  intros Hnone. unfold sendLocationUpdate, bind, gets.
  rewrite Hnone. reflexivity.
Qed.

(** C5, as the specification states it, fails: with the permissions
    granted and a datastore that refuses the update, [startTracking]
    returns [true] and the delivery is not [in_transit]. *)
Lemma startTracking_update_refused :
  isTracking (service (Examples.idle granted granted false)) = false ∧
  foregroundStatus (device (Examples.idle granted granted false))
    = granted ∧
  fst (startTracking Examples.session1
         (Examples.idle granted granted false)) = true ∧
  ¬ start_marks_in_transit Examples.session1
      (Examples.idle granted granted false).
Proof.
  split_and!; try reflexivity.
  intros H. destruct H as (od & Hod & Hst & _).
  - vm_compute. eauto.
  - vm_compute in Hod. injection Hod as <-. discriminate.
Qed.

(** C5, amended. With no session active, [startTracking(session)]
    returns whether the foreground permission is granted. If it is not,
    the service, the device and the datastore are as before. If it is,
    the session is set and tracking is on, a new subscription is live
    whose callback is [sendLocationUpdate], the background updates run
    if the background permission is granted, and the update that sets
    [in_transit] and the time of start was sent: it changes the row of
    the delivery when the datastore lets it through, and is logged and
    otherwise ignored when not. The console takes the warning of a
    background permission that is not granted, then the error of an
    update that was refused, and nothing else; with no foreground
    permission it takes the error of the permission. *)
Theorem startTracking_when_idle session w :
  isTracking (service w) = false →
  fst (startTracking session w) = is_granted (foregroundStatus (device w)) ∧
  if is_granted (foregroundStatus (device w)) then
    service (snd (startTracking session w)) =
      {| currentSession := Some session;
         isTracking := true;
         foregroundSubscription := Some (next_handle (device w)) |} ∧
    watchers (device (snd (startTracking session w))) =
      {[next_handle (device w)]} ∪ watchers (device w) ∧
    (∀ location,
       on_position (next_handle (device w)) location
                   (snd (startTracking session w)) =
       sendLocationUpdate location (snd (startTracking session w))) ∧
    task_registered (device (snd (startTracking session w))) =
      is_granted (backgroundStatus (device w))
      || task_registered (device w) ∧
    db (backend (snd (startTracking session w))) =
      (if accepts (backend w)
       then with_deliveries
              (alter (mark_in_transit (clock w)) (deliveryId session))
              (db (backend w))
       else db (backend w)) ∧
    console (snd (startTracking session w)) =
      (console w
       ++ (if is_granted (backgroundStatus (device w)) then []
           else [(warn,
                  "Background location permission denied - tracking will only work in foreground")]))
      ++ (if accepts (backend w) then []
          else [(error, "Failed to update delivery status:")])
  else
    service (snd (startTracking session w)) = service w ∧
    device (snd (startTracking session w)) = device w ∧
    backend (snd (startTracking session w)) = backend w ∧
    console (snd (startTracking session w)) =
      console w ++ [(error, "Foreground location permission denied")].
Proof.
  destruct w as [[cs it fs] [fg bg ws nh tr] [d acc sn gen] clk con].
  simpl. intros ->.
  destruct fg, bg, acc; simpl; split_and!; rewrite ?app_nil_r;
    try reflexivity.
  all: intros location; unfold on_position, bind, gets; simpl.
  all: rewrite bool_decide_eq_true_2 by set_solver; reflexivity.
Qed.

(** C7, as the specification states it, fails: with a session active and
    a datastore that refuses the update, [stopTracking] clears the
    session and the delivery is not [delivered]. *)
Lemma stopTracking_update_refused :
  isTracking
    (service (Examples.cut_off (Examples.started granted granted true)))
    = true ∧
  currentSession
    (service (Examples.cut_off (Examples.started granted granted true)))
    = Some Examples.session1 ∧
  currentSession
    (service
       (snd (stopTracking
               (Examples.cut_off (Examples.started granted granted true)))))
    = None ∧
  ¬ stop_marks_delivered Examples.session1
      (Examples.cut_off (Examples.started granted granted true)).
Proof.
  split_and!; try reflexivity.
  intros H. destruct H as (od & Hod & Hst & _).
  - vm_compute. eauto.
  - vm_compute in Hod. injection Hod as <-. discriminate.
Qed.

(** C7, amended. [stopTracking] with no session active returns and
    changes nothing. With a session active it removes the subscription
    of the service, stops the background updates, sends the update that
    sets [delivered] and the time of end (it changes the row of the
    delivery when the datastore lets it through, and is logged and
    otherwise ignored when not: the console takes the error of a refused
    update and nothing else) and clears the session; a second call then
    changes nothing. *)
Theorem stopTracking_halts_and_clears w :
  if isTracking (service w) then
    service (snd (stopTracking w)) =
      {| currentSession := None;
         isTracking := false;
         foregroundSubscription := None |} ∧
    watchers (device (snd (stopTracking w))) =
      match foregroundSubscription (service w) with
      | Some h => watchers (device w) ∖ {[h]}
      | None => watchers (device w)
      end ∧
    task_registered (device (snd (stopTracking w))) = false ∧
    db (backend (snd (stopTracking w))) =
      match currentSession (service w) with
      | Some session =>
          if accepts (backend w)
          then with_deliveries
                 (alter (mark_delivered (clock w)) (deliveryId session))
                 (db (backend w))
          else db (backend w)
      | None => db (backend w)
      end ∧
    console (snd (stopTracking w)) =
      console w
      ++ match currentSession (service w) with
         | Some _ =>
             if accepts (backend w) then []
             else [(error, "Failed to update delivery status:")]
         | None => []
         end ∧
    stopTracking (snd (stopTracking w)) = (tt, snd (stopTracking w))
  else stopTracking w = (tt, w).
Proof.
  destruct w as [[cs it fs] [fg bg ws nh tr] [d acc sn gen] clk con].
  simpl. destruct it; [| reflexivity].
  destruct fs as [h |], tr, cs as [session |], acc; simpl;
    split_and!; rewrite ?app_nil_r; reflexivity.
Qed.

Lemma startTracking_when_idle_witness :
  fst (startTracking Examples.session1
         (Examples.idle granted denied true)) = true ∧
  Sql.tracking_status <$>
    deliveries (Examples.started granted denied true) !! "d1"
    = Some (Some Sql.in_transit) ∧
  Sql.tracking_started_at <$>
    deliveries (Examples.started granted denied true) !! "d1"
    = Some (Some 990) ∧
  length
    (log (snd (on_position 0 Examples.here
                 (Examples.started granted denied true)))) = 1%nat ∧
  console (Examples.started granted denied true) =
    [(warn,
      "Background location permission denied - tracking will only work in foreground")].
Proof.
  pose proof (startTracking_when_idle Examples.session1
                (Examples.idle granted denied true) eq_refl)
    as (Hret & _ & _ & _ & _ & Hdb & Hcon).
  split_and!.
  - exact Hret.
  - unfold Examples.started. rewrite Hdb. vm_compute. reflexivity.
  - unfold Examples.started. rewrite Hdb. vm_compute. reflexivity.
  - vm_compute. reflexivity.
  - unfold Examples.started. rewrite Hcon. reflexivity.
Defined.

Lemma startTracking_twice_is_noop_witness :
  fst (startTracking Examples.session1
         (Examples.started granted granted true)) = true ∧
  service (snd (startTracking Examples.session1
                  (Examples.started granted granted true)))
    = service (Examples.started granted granted true) ∧
  device (snd (startTracking Examples.session1
                 (Examples.started granted granted true)))
    = device (Examples.started granted granted true) ∧
  backend (snd (startTracking Examples.session1
                  (Examples.started granted granted true)))
    = backend (Examples.started granted granted true) ∧
  clock (snd (startTracking Examples.session1
                (Examples.started granted granted true)))
    = clock (Examples.started granted granted true).
Proof.
  apply (startTracking_twice_is_noop Examples.session1
           (Examples.started granted granted true)).
  reflexivity.
Defined.

Lemma sendLocationUpdate_dropped_without_session_witness :
  sendLocationUpdate Examples.here
    (snd (stopTracking (Examples.started granted granted true)))
  = (tt, snd (stopTracking (Examples.started granted granted true))).
Proof.
  apply (sendLocationUpdate_dropped_without_session Examples.here
           (snd (stopTracking (Examples.started granted granted true)))).
  reflexivity.
Defined.

End Sampler.

(** ** The tracking subscriber *)

Section Status.

Import Subscriber.

Lemma truthy_is_set (x : optional string) : truthy x = true ↔ is_set x.
Proof.
  split.
  - destruct x as [| | [| c t]]; try discriminate.
    intros _. by exists (String c t).
  - intros (t & -> & Ht). by destruct t.
Qed.

Lemma truthy_not_set (x : optional string) : truthy x = false ↔ ¬ is_set x.
Proof.
  rewrite <- truthy_is_set. by destruct (truthy x).
Qed.

(** C8. The status is [arrived] whenever [trackingEndedAt] is set,
    whatever the other two are; otherwise [not_started] when
    [trackingStartedAt] is absent; otherwise [arriving_soon] when the
    distance is known and below 0.5; otherwise [tracking] (the distance
    is [null], [undefined] or not below 0.5). On a finite number "below
    0.5" is the order of the rationals. *)
Theorem getTrackingStatus_cases
    (trackingStartedAt trackingEndedAt : optional string)
    (distanceKm : optional number) :
  (is_set trackingEndedAt →
   getTrackingStatus trackingStartedAt trackingEndedAt distanceKm
     = arrived) ∧
  (¬ is_set trackingEndedAt → ¬ is_set trackingStartedAt →
   getTrackingStatus trackingStartedAt trackingEndedAt distanceKm
     = not_started) ∧
  (¬ is_set trackingEndedAt → is_set trackingStartedAt →
   ∀ x, distanceKm = defined x → number_ltb x 0.5 = true →
   getTrackingStatus trackingStartedAt trackingEndedAt distanceKm
     = arriving_soon) ∧
  (¬ is_set trackingEndedAt → is_set trackingStartedAt →
   distanceKm = null ∨ distanceKm = undefined ∨
   (∃ x, distanceKm = defined x ∧ number_ltb x 0.5 = false) →
   getTrackingStatus trackingStartedAt trackingEndedAt distanceKm
     = tracking) ∧
  (∀ q, number_ltb (Finite q) 0.5 = true ↔ (q < 0.5)%Q) ∧
  (∀ q, number_ltb (Finite q) 0.5 = false ↔ (0.5 <= q)%Q).
Proof.
  unfold getTrackingStatus. split_and!.
  - intros He%truthy_is_set. by rewrite He.
  - intros He%truthy_not_set Hs%truthy_not_set. by rewrite He, Hs.
  - intros He%truthy_not_set Hs%truthy_is_set x -> Hx.
    by rewrite He, Hs, Hx.
  - intros He%truthy_not_set Hs%truthy_is_set Hd. rewrite He, Hs. simpl.
    destruct Hd as [-> | [-> | (x & -> & Hx)]]; [done | done |].
    by rewrite Hx.
  - intros q. simpl. destruct (Qlt_le_dec q 0.5) as [Hlt | Hle].
    + done.
    + split; [discriminate |]. intros Hlt. by apply Qle_not_lt in Hle.
  - intros q. simpl. destruct (Qlt_le_dec q 0.5) as [Hlt | Hle].
    + split; [discriminate |]. intros Hle. by apply Qle_not_lt in Hle.
    + done.
Qed.

Lemma getTrackingStatus_cases_witness :
  Subscriber.getTrackingStatus
    (Subscriber.defined "2026-02-04T10:00:00Z")
    (Subscriber.defined "2026-02-04T10:40:00Z")
    (Subscriber.defined (Subscriber.Finite 0.2))
  = Subscriber.arrived.
Proof.
  apply (getTrackingStatus_cases
           (Subscriber.defined "2026-02-04T10:00:00Z")
           (Subscriber.defined "2026-02-04T10:40:00Z")
           (Subscriber.defined (Subscriber.Finite 0.2))).
  exists "2026-02-04T10:40:00Z". split; [reflexivity | discriminate].
Defined.

End Status.

Section History.

Import Subscriber.

Lemma select_history_bounded (deliveryId : string) (d : Sql.database) :
  (length (select_history deliveryId d) <= 100)%nat.
Proof. unfold select_history. rewrite length_take. lia. Qed.

(** Each event keeps the history within 100 entries. *)
Lemma step_bounded (deliveryId : string) (st : State) (e : event) :
  (length (locationHistory st) <= 100)%nat →
  (length (locationHistory (step deliveryId st e)) <= 100)%nat.
Proof.
  intros Hst. destruct e as [d ok1 ok2 | newLocation | updated | b |].
  - unfold step, fetchTrackingData.
    destruct deliveryId as [| c id]; [exact Hst |].
    destruct ok1; [| exact Hst].
    destruct (Sql.outgoing_deliveries d !! String c id) as [delivery |];
      [| exact Hst].
    destruct ok2; [apply select_history_bounded | exact Hst].
  - simpl. rewrite length_take. lia.
  - exact Hst.
  - exact Hst.
  - exact Hst.
Qed.

Lemma foldl_step_bounded (deliveryId : string) (events : list event)
    (st : State) :
  (length (locationHistory st) <= 100)%nat →
  (length (locationHistory (foldl (step deliveryId) st events)) <= 100)%nat.
Proof.
  revert st. induction events as [| e events IH]; intros st Hst; simpl.
  - exact Hst.
  - by apply IH, step_bounded.
Qed.

(** C9. The history the hook keeps never has more than 100 entries: the
    fetch asks for 100 rows at most, each inserted row is put in front
    and the list is cut at 100, and no other event touches the list. *)
Theorem locationHistory_at_most_100 (deliveryId : string)
    (events : list event) :
  (length (locationHistory (run deliveryId events)) <= 100)%nat ∧
  (∀ d, (length (select_history deliveryId d) <= 100)%nat) ∧
  (∀ newLocation st,
     locationHistory (on_insert newLocation st)
       = take 100 (newLocation :: locationHistory st) ∧
     (length (locationHistory (on_insert newLocation st)) <= 100)%nat).
Proof.
  split_and!.
  - apply foldl_step_bounded. simpl. lia.
  - intros d. apply select_history_bounded.
  - intros newLocation st. split; [reflexivity |].
    simpl. rewrite length_take. lia.
Qed.

(** The bound is reached: 150 rows inserted leave 100 in the history. *)
Example history_is_cut_at_100 :
  length
    (locationHistory
       (run "d1" (replicate 150 (Inserted Examples.fix_recorded_20))))
  = 100%nat.
Proof. vm_compute. reflexivity. Qed.

End History.

(** ** The location log as a ledger *)

Section Ledger.

Import Sql.

Implicit Types (db : database) (row f : delivery_location).

Lemma insert_delivery_location_tables row db db' :
  insert_delivery_location row db = Returned db' →
  drivers db' = drivers db ∧ restaurants db' = restaurants db.
Proof.
  unfold insert_delivery_location.
  repeat case_bool_decide; try discriminate.
  destruct (match driver_id row with
            | None => true
            | Some drv => bool_decide (drv ∈ drivers db)
            end); [| discriminate].
  by intros [= <-].
Qed.

(** X1. An insert leaves the tables of drivers and restaurants and the rows of
    the other deliveries as they are; on the row of its delivery it writes
    the five snapshot columns and no other column (the tracking status, the
    times of start and end, the estimate and the route stay). *)
Theorem insert_writes_snapshot_only row db db' :
  insert_delivery_location row db = Returned db' →
  drivers db' = drivers db ∧
  restaurants db' = restaurants db ∧
  (∀ d, d ≠ delivery_id row →
        outgoing_deliveries db' !! d = outgoing_deliveries db !! d) ∧
  ∃ od od',
    outgoing_deliveries db !! delivery_id row = Some od ∧
    outgoing_deliveries db' !! delivery_id row = Some od' ∧
    supplier_id od' = supplier_id od ∧
    restaurant_id od' = restaurant_id od ∧
    status od' = status od ∧
    tracking_status od' = tracking_status od ∧
    od_driver_id od' = od_driver_id od ∧
    tracking_started_at od' = tracking_started_at od ∧
    tracking_ended_at od' = tracking_ended_at od ∧
    estimated_arrival_time od' = estimated_arrival_time od ∧
    route_distance_km od' = route_distance_km od ∧
    route_duration_minutes od' = route_duration_minutes od.
Proof.
  intros Hins.
  destruct (insert_delivery_location_tables _ _ _ Hins) as [Hdrv Hres].
  apply insert_delivery_location_Returned in Hins as ([od Hod] & _ & Hods).
  split_and!; [done | done | |].
  - intros d Hd. rewrite Hods. by apply lookup_alter_ne.
  - exists od, (set_current_location row od). rewrite Hods.
    rewrite lookup_alter_eq, Hod. by split_and!.
Qed.

Lemma insert_writes_snapshot_only_witness :
  ∃ od',
    outgoing_deliveries (ingest Examples.db1 Examples.fix_recorded_20)
      !! "d1" = Some od' ∧
    tracking_status od' = Some pending ∧
    tracking_started_at od' = None.
Proof.
  destruct (insert_writes_snapshot_only Examples.fix_recorded_20
              Examples.db1 (ingest Examples.db1 Examples.fix_recorded_20))
    as (_ & _ & _ & od & od' & Hod & Hod' & _ & _ & _ & Hts & _ & Hst & _).
  - vm_compute. reflexivity.
  - exists od'. split; [exact Hod' |].
    assert (od = Examples.od_pending) as ->.
    { apply (inj Some). rewrite <- Hod. reflexivity. }
    by rewrite Hts, Hst.
Defined.

Lemma ingest_log db row :
  delivery_locations (ingest db row) = delivery_locations db ∨
  (insert_delivery_location row db = Returned (ingest db row) ∧
   delivery_locations (ingest db row) = delivery_locations db ++ [row]).
Proof.
  unfold ingest.
  destruct (insert_delivery_location row db) as [db' | e] eqn:Hins;
    [| by left].
  right. split; [done |].
  by apply insert_delivery_location_Returned in Hins as (_ & Hlog & _).
Qed.

Lemma ingest_dom db row :
  dom (outgoing_deliveries (ingest db row)) = dom (outgoing_deliveries db) ∧
  drivers (ingest db row) = drivers db ∧
  restaurants (ingest db row) = restaurants db.
Proof.
  unfold ingest.
  destruct (insert_delivery_location row db) as [db' | e] eqn:Hins;
    [| done].
  destruct (insert_delivery_location_tables _ _ _ Hins) as [Hd Hr].
  apply insert_delivery_location_Returned in Hins as (_ & _ & ->).
  split_and!; [| done | done].
  apply set_eq. intros k. rewrite !elem_of_dom, lookup_alter.
  case_decide; [| done]. subst k. by rewrite fmap_is_Some.
Qed.

(** X2. The log only grows at its end, whatever is sent: the rows stored
    before a sequence of inserts are a prefix of the rows stored after it,
    no delivery appears or disappears, and the drivers and the restaurants
    are as before. *)
Theorem ingest_all_appends_only (rows : list delivery_location) db :
  delivery_locations db `prefix_of` delivery_locations (ingest_all rows db) ∧
  dom (outgoing_deliveries (ingest_all rows db))
    = dom (outgoing_deliveries db) ∧
  drivers (ingest_all rows db) = drivers db ∧
  restaurants (ingest_all rows db) = restaurants db.
Proof.
  unfold ingest_all. revert db.
  induction rows as [| row rows IH]; intros db; simpl; [done |].
  destruct (IH (ingest db row)) as (Hpre & Hdom & Hdrv & Hres).
  destruct (ingest_dom db row) as (Hdom1 & Hdrv1 & Hres1).
  split_and!; [| congruence | congruence | congruence].
  etrans; [| exact Hpre].
  destruct (ingest_log db row) as [-> | [_ ->]]; [done |].
  by apply prefix_app_r.
Qed.

Lemma ingest_integrity db row :
  log_integrity db → log_integrity (ingest db row).
Proof.
  intros [Hnodup Hfk]. unfold ingest.
  destruct (insert_delivery_location row db) as [db' | e] eqn:Hins;
    [| done].
  destruct (insert_delivery_location_tables _ _ _ Hins) as [Hdrv _].
  pose proof Hins as Hins'.
  apply insert_delivery_location_Returned in Hins' as (Hsome & Hlog & Hods).
  revert Hins. unfold insert_delivery_location.
  case_bool_decide as Hid; [discriminate |].
  case_bool_decide as Hnone; [discriminate |].
  destruct (driver_id row) as [drv |] eqn:Hdriver.
  - case_bool_decide as Hin; [| discriminate]. intros _.
    split.
    + rewrite Hlog, fmap_app. apply NoDup_app. split_and!; [done | |].
      * intros x Hx ->%list_elem_of_singleton. done.
      * apply NoDup_singleton.
    + intros f. rewrite Hlog, Hods, Hdrv.
      intros [Hf | ->%list_elem_of_singleton]%elem_of_app.
      * destruct (Hfk f Hf) as [Hex Hd]. split; [| done].
        by apply lookup_alter_is_Some.
      * split; [by apply lookup_alter_is_Some |].
        intros drv' Hdrv'. congruence.
  - intros _. split.
    + rewrite Hlog, fmap_app. apply NoDup_app. split_and!; [done | |].
      * intros x Hx ->%list_elem_of_singleton. done.
      * apply NoDup_singleton.
    + intros f. rewrite Hlog, Hods, Hdrv.
      intros [Hf | ->%list_elem_of_singleton]%elem_of_app.
      * destruct (Hfk f Hf) as [Hex Hd]. split; [| done].
        by apply lookup_alter_is_Some.
      * split; [by apply lookup_alter_is_Some |].
        intros drv' Hdrv'. congruence.
Qed.

(** X3. The keys of the log hold through any sequence of inserts: the
    identifiers of the stored fixes stay distinct, and each stored fix
    refers to a delivery and (when it names one) a driver that exist. *)
Theorem ingest_all_keeps_integrity (rows : list delivery_location) db :
  log_integrity db → log_integrity (ingest_all rows db).
Proof.
  unfold ingest_all. revert db.
  induction rows as [| row rows IH]; intros db Hdb; simpl; [done |].
  by apply IH, ingest_integrity.
Qed.

Lemma ingest_all_keeps_integrity_witness :
  log_integrity
    (ingest_all [Examples.fix_recorded_20; Examples.fix_recorded_20;
                 Examples.fix_recorded_10] Examples.db1).
Proof.
  apply (ingest_all_keeps_integrity
           [Examples.fix_recorded_20; Examples.fix_recorded_20;
            Examples.fix_recorded_10] Examples.db1).
  split; [constructor |].
  intros f Hf. simpl in Hf. by apply elem_of_nil in Hf.
Defined.

(** The types of the columns leave the keys and the times of a row, and
    give each number the type of its column. *)
Lemma coerce_Returned v row :
  coerce v = Returned row →
  id row = id v ∧
  delivery_id row = delivery_id v ∧
  driver_id row = driver_id v ∧
  recorded_at row = recorded_at v ∧
  typmod 10 8 (latitude v) = Returned (latitude row) ∧
  typmod 11 8 (longitude v) = Returned (longitude row) ∧
  typmod_null 6 2 (speed v) = Returned (speed row) ∧
  typmod_null 5 2 (heading v) = Returned (heading row).
Proof.
  unfold coerce.
  destruct (typmod 10 8 (latitude v)) as [lat | e]; [| discriminate].
  destruct (typmod 11 8 (longitude v)) as [lon | e]; [| discriminate].
  destruct (typmod_null 8 2 (accuracy v)) as [acc | e]; [| discriminate].
  destruct (typmod_null 10 2 (altitude v)) as [alt | e]; [| discriminate].
  destruct (typmod_null 6 2 (speed v)) as [spd | e]; [| discriminate].
  destruct (typmod_null 5 2 (heading v)) as [hdg | e]; [| discriminate].
  destruct (typmod_null 5 2 (battery_level v)) as [bat | e];
    [| discriminate].
  simpl. intros [= <-]. simpl. done.
Qed.

Lemma typmod_Raised p s x e :
  typmod p s x = Raised e → e = numeric_value_out_of_range.
Proof.
  unfold typmod.
  destruct (10 ^ (p - s) * 10 ^ s
            <=? Z.abs (round_half_away (x * inject_Z (10 ^ s))));
    [| discriminate].
  by intros [= <-].
Qed.

Lemma typmod_null_Raised p s x e :
  typmod_null p s x = Raised e → e = numeric_value_out_of_range.
Proof.
  destruct x as [q |]; simpl; [| discriminate].
  destruct (typmod p s q) as [r | e'] eqn:E; simpl; [discriminate |].
  intros [= <-]. by eapply typmod_Raised.
Qed.

(** The only error of the types of the columns is a number out of the
    range of its column. *)
Lemma coerce_Raised v e :
  coerce v = Raised e → e = numeric_value_out_of_range.
Proof.
  unfold coerce.
  destruct (typmod 10 8 (latitude v)) as [lat | e1] eqn:E1; simpl;
    [| intros [= <-]; by eapply typmod_Raised].
  destruct (typmod 11 8 (longitude v)) as [lon | e2] eqn:E2; simpl;
    [| intros [= <-]; by eapply typmod_Raised].
  destruct (typmod_null 8 2 (accuracy v)) as [acc | e3] eqn:E3; simpl;
    [| intros [= <-]; by eapply typmod_null_Raised].
  destruct (typmod_null 10 2 (altitude v)) as [alt | e4] eqn:E4; simpl;
    [| intros [= <-]; by eapply typmod_null_Raised].
  destruct (typmod_null 6 2 (speed v)) as [spd | e5] eqn:E5; simpl;
    [| intros [= <-]; by eapply typmod_null_Raised].
  destruct (typmod_null 5 2 (heading v)) as [hdg | e6] eqn:E6; simpl;
    [| intros [= <-]; by eapply typmod_null_Raised].
  destruct (typmod_null 5 2 (battery_level v)) as [bat | e7] eqn:E7; simpl;
    [| intros [= <-]; by eapply typmod_null_Raised].
  discriminate.
Qed.

Lemma ingest_values_cases db v :
  ingest_values db v = db ∨
  ∃ row, coerce v = Returned row ∧ ingest_values db v = ingest db row.
Proof.
  unfold ingest_values, insert_values, ingest.
  destruct (coerce v) as [row | e]; simpl; [| by left].
  right. by exists row.
Qed.

Lemma ingest_values_dom db v :
  dom (outgoing_deliveries (ingest_values db v))
    = dom (outgoing_deliveries db) ∧
  drivers (ingest_values db v) = drivers db ∧
  restaurants (ingest_values db v) = restaurants db.
Proof.
  destruct (ingest_values_cases db v) as [-> | (row & _ & ->)]; [done |].
  apply ingest_dom.
Qed.

(** A number is stored with the decimals of its column, a half rounded
    away from zero; a number with too many digits is refused. *)
Example typmod_rounds_and_refuses :
  typmod 10 8 (60171234565 # 1000000000) = Returned (6017123457 # 100000000)%Q ∧
  typmod 10 8 (- (60171234565 # 1000000000)) =
    Returned (-6017123457 # 100000000)%Q ∧
  typmod 6 2 9999.994 = Returned (999999 # 100)%Q ∧
  typmod 6 2 9999.995 = Raised numeric_value_out_of_range ∧
  typmod 6 2 10000 = Raised numeric_value_out_of_range.
Proof. by vm_compute. Qed.

End Ledger.

(** ** The distance and the estimate, at their edges *)

Section Distance.

Import Sql.

Variables radians sin cos sqrt : Q → Q.
Variable atan2 : Q → Q → Q.

Local Abbreviation distance := (calculate_distance_km radians sin cos sqrt atan2).
Local Abbreviation eta := (estimate_arrival_time radians sin cos sqrt atan2).

(** X4. [calculate_distance_km] on a NULL coordinate is NULL, and no error:
    the square roots are not taken. *)
Theorem distance_null_on_null (lat1 lon1 lat2 lon2 : option Q) :
  lat1 = None ∨ lon1 = None ∨ lat2 = None ∨ lon2 = None →
  calculate_distance_km radians sin cos sqrt atan2 lat1 lon1 lat2 lon2
    = Returned None.
Proof.
  intros Hnull. unfold calculate_distance_km.
  destruct lat1, lon1, lat2, lon2; try reflexivity.
  by destruct Hnull as [H | [H | [H | H]]].
Qed.

(** The only error of the distance is the square root of a negative
    number. *)
Lemma distance_raises_sqrt_only (lat1 lon1 lat2 lon2 : option Q) e :
  distance lat1 lon1 lat2 lon2 = Raised e →
  e = invalid_argument_for_power_function.
Proof.
  unfold calculate_distance_km.
  destruct lat1, lon1, lat2, lon2; try discriminate.
  simpl. unfold numeric_sqrt.
  repeat (destruct (Qlt_le_dec _ 0); simpl); congruence.
Qed.

(** X5. The estimator never divides by zero: whatever numbers the rows of
    the delivery and of its restaurant hold, the divisor is 3.6 times a
    speed of at least 1 or times 8.33, and the division raises no error. *)
Theorem eta_never_divides_by_zero (now : Z) (db : database) (p : string) :
  estimate_arrival_time radians sin cos sqrt atan2 now db p
    ≠ Raised division_by_zero.
Proof.
  intros Heta.
  revert Heta. unfold estimate_arrival_time.
  destruct (is_null _ || is_null _); [discriminate |].
  destruct (distance _ _ _ _) as [dist | e'] eqn:Hdist; simpl.
  - assert (Hv : ∃ v,
        match outgoing_deliveries db !! p ≫= current_speed with
        | None => Some 8.33%Q
        | Some s => if Qlt_le_dec s 1 then Some 8.33%Q else Some s
        end = Some v ∧ Qeq_bool (v * 3.6) 0 = false).
    { destruct (outgoing_deliveries db !! p ≫= current_speed) as [s |].
      - destruct (Qlt_le_dec s 1) as [Hlt | Hle].
        + exists 8.33%Q. split; [done |].
          by apply (speed_used_divisor (Some s)), speed_below_1.
        + exists s. split; [done |].
          by apply (speed_used_divisor (Some s)), speed_live.
      - exists 8.33%Q. split; [done |].
        apply (speed_used_divisor None), speed_unknown. }
    destruct Hv as (v & -> & Hdiv).
    destruct dist as [dist |]; simpl; [| discriminate].
    rewrite Hdiv. discriminate.
  - intros [= ->]. by apply distance_raises_sqrt_only in Hdist.
Qed.

(** The shape of an estimate that is not NULL. *)
Lemma eta_Returned_Some (now : Z) (db : database) (p : string) (t : Z) :
  eta now db p = Returned (Some t) →
  ∃ lat1 lon1 lat2 lon2 dist v,
    distance lat1 lon1 lat2 lon2 = Returned (Some dist) ∧
    (1 <= v)%Q ∧
    t = now + interval_of_minutes (dist / (v * 3.6) * 60)%Q.
Proof.
  unfold estimate_arrival_time.
  destruct (is_null _ || is_null _); [discriminate |].
  destruct (distance _ _ _ _) as [[dist |] | e'] eqn:Hdist; simpl;
    [| | discriminate].
  - destruct (outgoing_deliveries db !! p ≫= current_speed) as [s |].
    + destruct (Qlt_le_dec s 1) as [Hlt | Hle]; simpl.
      * intros [= <-]. eexists _, _, _, _, dist, 8.33%Q.
        split_and!; [exact Hdist | by vm_compute | reflexivity].
      * rewrite (speed_used_divisor (Some s) s) by by constructor.
        simpl. intros [= <-]. eexists _, _, _, _, dist, s.
        split_and!; [exact Hdist | done | reflexivity].
    + simpl. intros [= <-]. eexists _, _, _, _, dist, 8.33%Q.
      split_and!; [exact Hdist | by vm_compute | reflexivity].
  - by destruct (match outgoing_deliveries db !! p ≫= current_speed with
                 | None => Some 8.33%Q
                 | Some s => if Qlt_le_dec s 1 then Some 8.33%Q else Some s
                 end).
Qed.

Lemma interval_of_minutes_nonneg (m : Q) :
  (0 <= m)%Q → 0 <= interval_of_minutes m.
Proof.
  intros Hm. unfold interval_of_minutes.
  assert (Hx : (0 <= m * 60000000)%Q) by by apply Qmult_le_0_compat.
  destruct (Qlt_le_dec (m * 60000000) 0) as [Hneg | _].
  - by apply Qlt_not_le in Hneg.
  - unfold Qceiling.
    assert (Qfloor (- (m * 60000000 - (1 # 2))) <= 0); [| lia].
    change 0 with (Qfloor (1 # 2)). apply Qfloor_resp_le.
    apply Qle_minus_iff.
    assert (E : ((1 # 2) + - - (m * 60000000 - (1 # 2)) == m * 60000000)%Q)
      by ring.
    by rewrite E.
Qed.

Lemma distance_nonneg (lat1 lon1 lat2 lon2 : option Q) (dist : Q) :
  (∀ x, (0 <= x)%Q → (0 <= sqrt x)%Q) →
  (∀ y x, (0 <= y)%Q → (0 <= x)%Q → (0 <= atan2 y x)%Q) →
  distance lat1 lon1 lat2 lon2 = Returned (Some dist) →
  (0 <= dist)%Q.
Proof.
  intros Hsqrt Hatan. unfold calculate_distance_km.
  destruct lat1, lon1, lat2, lon2; try discriminate.
  simpl. unfold numeric_sqrt.
  destruct (Qlt_le_dec _ 0) as [? | Ha]; [discriminate |]. simpl.
  destruct (Qlt_le_dec _ 0) as [? | Hb]; [discriminate |]. simpl.
  intros [= <-].
  apply Qmult_le_0_compat; [done |].
  apply Qmult_le_0_compat; [done |].
  apply Hatan; by apply Hsqrt.
Qed.

(** X6. An estimate is never before [now()]: with a square root and an angle
    that are not negative, the distance is not negative, the speed is at
    least 1, and so is the offset. *)
Theorem eta_not_before_now (now : Z) (db : database) (p : string) (t : Z) :
  (∀ x, (0 <= x)%Q → (0 <= sqrt x)%Q) →
  (∀ y x, (0 <= y)%Q → (0 <= x)%Q → (0 <= atan2 y x)%Q) →
  estimate_arrival_time radians sin cos sqrt atan2 now db p
    = Returned (Some t) →
  now <= t.
Proof.
  intros Hsqrt Hatan Heta.
  apply eta_Returned_Some in Heta
    as (lat1 & lon1 & lat2 & lon2 & dist & v & Hdist & Hv & ->).
  apply distance_nonneg in Hdist; [| done | done].
  assert (0 <= interval_of_minutes (dist / (v * 3.6) * 60)%Q); [| lia].
  apply interval_of_minutes_nonneg.
  apply Qmult_le_0_compat; [| done].
  apply Qmult_le_0_compat; [done |].
  apply Qinv_le_0_compat.
  apply Qmult_le_0_compat; [| done].
  by apply Qle_trans with 1%Q.
Qed.

(** X7. At the destination the distance is zero and the estimate is [now()]:
    with functions that send zero to zero (and a square root of 1 that is
    positive), a delivery whose current position is the position of its
    restaurant has the distance 0 and the estimate [now()], whatever its
    speed. *)
Theorem eta_now_at_destination (now : Z) (db : database) (p : string)
    (od : outgoing_delivery) (r : restaurant) (la lo : Q) :
  (∀ x, (x == 0)%Q → (radians x == 0)%Q) →
  (∀ x, (x == 0)%Q → (sin x == 0)%Q) →
  (∀ x, (x == 0)%Q → (sqrt x == 0)%Q) →
  (∀ x, (x == 1)%Q → (0 < sqrt x)%Q) →
  (∀ y x, (y == 0)%Q → (0 < x)%Q → (atan2 y x == 0)%Q) →
  outgoing_deliveries db !! p = Some od →
  restaurants db !! restaurant_id od = Some r →
  current_latitude od = Some la →
  current_longitude od = Some lo →
  r_latitude r = Some la →
  r_longitude r = Some lo →
  (∃ dist, calculate_distance_km radians sin cos sqrt atan2
             (Some la) (Some lo) (Some la) (Some lo)
             = Returned (Some dist) ∧ (dist == 0)%Q) ∧
  estimate_arrival_time radians sin cos sqrt atan2 now db p
    = Returned (Some now).
Proof.
  intros Hrad Hsin Hsqrt0 Hsqrt1 Hatan Hod Hr Hla Hlo Hrla Hrlo.
  assert (Hdist : ∃ dist, distance (Some la) (Some lo) (Some la) (Some lo)
                            = Returned (Some dist) ∧ (dist == 0)%Q).
  { unfold calculate_distance_km. simpl. unfold numeric_sqrt.
    assert (Hlat : (sin (radians (la - la) / 2) == 0)%Q).
    { apply Hsin. assert (Hz : (radians (la - la) == 0)%Q).
      { apply Hrad. ring. }
      rewrite Hz. reflexivity. }
    assert (Hlon : (sin (radians (lo - lo) / 2) == 0)%Q).
    { apply Hsin. assert (Hz : (radians (lo - lo) == 0)%Q).
      { apply Hrad. ring. }
      rewrite Hz. reflexivity. }
    remember (sin (radians (la - la) / 2) * sin (radians (la - la) / 2) +
              cos (radians la) * cos (radians la) *
              sin (radians (lo - lo) / 2) * sin (radians (lo - lo) / 2))%Q
      as a eqn:Ea.
    assert (Ha : (a == 0)%Q) by (subst a; rewrite Hlat, Hlon; ring).
    clear Ea.
    destruct (Qlt_le_dec a 0) as [Hneg | _].
    { rewrite Ha in Hneg. by apply Qlt_irrefl in Hneg. }
    simpl.
    destruct (Qlt_le_dec (1 - a) 0) as [Hneg | _].
    { rewrite Ha in Hneg. by vm_compute in Hneg. }
    simpl. eexists. split; [reflexivity |].
    rewrite (Hatan (sqrt a) (sqrt (1 - a))).
    - ring.
    - by apply Hsqrt0.
    - apply Hsqrt1. rewrite Ha. ring. }
  split; [exact Hdist |].
  destruct Hdist as (dist & Hdist & Hzero).
  unfold estimate_arrival_time.
  rewrite Hod. simpl. rewrite Hr. simpl.
  rewrite Hla, Hlo, Hrla, Hrlo. simpl. rewrite Hdist. simpl.
  assert (Hv : ∃ v,
      match current_speed od with
      | None => Some 8.33%Q
      | Some s => if Qlt_le_dec s 1 then Some 8.33%Q else Some s
      end = Some v ∧ Qeq_bool (v * 3.6) 0 = false).
  { destruct (current_speed od) as [s |].
    - destruct (Qlt_le_dec s 1) as [Hlt | Hle].
      + exists 8.33%Q. split; [done |].
        by apply (speed_used_divisor (Some s)), speed_below_1.
      + exists s. split; [done |].
        by apply (speed_used_divisor (Some s)), speed_live.
    - exists 8.33%Q. split; [done |].
      apply (speed_used_divisor None), speed_unknown. }
  destruct Hv as (v & -> & Hdiv). simpl. rewrite Hdiv. simpl.
  do 2 f_equal.
  rewrite (interval_of_minutes_proper _ 0%Q).
  - change (interval_of_minutes 0) with 0. lia.
  - rewrite Hzero. unfold Qdiv. ring.
Qed.

End Distance.

Lemma distance_null_on_null_witness :
  Sql.calculate_distance_km Examples.same Examples.flat Examples.flat
    Examples.same Examples.angle_for_10_km
    (Some 60.2%Q) (Some 24.9%Q) None (Some 24.9384%Q)
  = Returned None.
Proof.
  apply (distance_null_on_null Examples.same Examples.flat Examples.flat
           Examples.same Examples.angle_for_10_km).
  right. right. left. reflexivity.
Defined.

Lemma eta_not_before_now_witness :
  Sql.estimate_arrival_time Examples.same Examples.flat Examples.flat
    Examples.same Examples.angle_for_10_km 1000
    (Examples.db_located (Some 60.2%Q) (Some 24.9%Q) (Some 0%Q)) "d1"
    = Returned (Some (1000 + 1200480192)) ∧
  1000 <= 1000 + 1200480192.
Proof.
  split; [vm_compute; reflexivity |].
  apply (eta_not_before_now Examples.same Examples.flat Examples.flat
           Examples.same Examples.angle_for_10_km 1000
           (Examples.db_located (Some 60.2%Q) (Some 24.9%Q) (Some 0%Q))
           "d1").
  - intros x Hx. exact Hx.
  - intros y x _ _. by vm_compute.
  - vm_compute. reflexivity.
Defined.

Lemma eta_now_at_destination_witness :
  Sql.estimate_arrival_time Examples.same Examples.same Examples.flat
    Examples.same Scenarios.opposite_side 1000
    (Examples.db_located (Some 60.1699%Q) (Some 24.9384%Q) (Some 14%Q))
    "d1"
  = Returned (Some 1000).
Proof.
  apply (eta_now_at_destination Examples.same Examples.same Examples.flat
           Examples.same Scenarios.opposite_side 1000
           (Examples.db_located (Some 60.1699%Q) (Some 24.9384%Q)
                                (Some 14%Q))
           "d1"
           (Examples.od_located (Some 60.1699%Q) (Some 24.9384%Q)
                                (Some 14%Q))
           Examples.r1 60.1699%Q 24.9384%Q).
  - intros x Hx. exact Hx.
  - intros x Hx. exact Hx.
  - intros x Hx. exact Hx.
  - intros x Hx. unfold Examples.same. rewrite Hx. by vm_compute.
  - intros y x Hy _. exact Hy.
  - reflexivity.
  - reflexivity.
  - reflexivity.
  - reflexivity.
  - reflexivity.
  - reflexivity.
Defined.

(** ** The retention policy *)

Section Purge.

Import Sql Retention.

Lemma purged_spec (now : Z) (d : database) (f : delivery_location) :
  purged now d f = true ↔
  recorded_at f < now - thirty_days ∧
  ∃ od, outgoing_deliveries d !! delivery_id f = Some od ∧
        status od ∈ ["delivered"; "confirmed"; "cancelled"].
Proof.
  unfold purged, terminal. rewrite andb_true_iff, bool_decide_eq_true.
  destruct (outgoing_deliveries d !! delivery_id f) as [od |].
  - rewrite bool_decide_eq_true. split.
    + intros [Hold Hterm]. split; [done |]. by exists od.
    + intros [Hold (od' & [= <-] & Hterm)]. done.
  - split; [by intros [_ ?] |]. by intros [_ (od' & ? & _)].
Qed.

(** X8. The cleanup deletes the fixes recorded more than 30 days before
    [now()] whose delivery has a final [status] (delivered, confirmed,
    cancelled), and nothing else: the other fixes stay, in their order,
    and the deliveries (their snapshots among them), the drivers and the
    restaurants are as before. *)
Theorem cleanup_deletes_old_fixes_of_closed_deliveries (now : Z)
    (d : database) :
  (∀ f, f ∈ delivery_locations (cleanup_old_location_data now d) ↔
        f ∈ delivery_locations d ∧
        ¬ (recorded_at f < now - thirty_days ∧
           ∃ od, outgoing_deliveries d !! delivery_id f = Some od ∧
                 status od ∈ ["delivered"; "confirmed"; "cancelled"])) ∧
  delivery_locations (cleanup_old_location_data now d)
    `sublist_of` delivery_locations d ∧
  outgoing_deliveries (cleanup_old_location_data now d)
    = outgoing_deliveries d ∧
  drivers (cleanup_old_location_data now d) = drivers d ∧
  restaurants (cleanup_old_location_data now d) = restaurants d.
Proof.
  split_and!; try reflexivity.
  - intros f. simpl. rewrite list_elem_of_filter, <- purged_spec.
    rewrite not_true_iff_false. tauto.
  - apply sublist_filter.
Qed.

(** X9. Cleaning up again, at the same time or later, gives what one cleanup
    at the later time gives: the cleanup is idempotent, and a fix it
    deleted stays deleted. *)
Theorem cleanup_twice (now now' : Z) (d : database) :
  now <= now' →
  cleanup_old_location_data now' (cleanup_old_location_data now d)
    = cleanup_old_location_data now' d.
Proof.
  intros Hle. unfold cleanup_old_location_data at 1 3. simpl. f_equal.
  rewrite list_filter_filter. apply list_filter_iff. intros f.
  change (purged now' (cleanup_old_location_data now d) f)
    with (purged now' d f).
  split; [tauto |]. intros Hkeep. split; [done |].
  apply not_true_iff_false. intros Hold.
  apply not_true_iff_false in Hkeep. apply Hkeep.
  apply purged_spec in Hold as [Hold Hterm].
  apply purged_spec. split; [lia | done].
Qed.

Lemma cleanup_twice_witness :
  cleanup_old_location_data 5000000000000
    (cleanup_old_location_data 4000000000000 Scenarios.db_closed)
  = cleanup_old_location_data 5000000000000 Scenarios.db_closed.
Proof.
  apply (cleanup_twice 4000000000000 5000000000000 Scenarios.db_closed).
  lia.
Defined.

(** The purge reads the column [status], which the sampler never writes. *)
Lemma purged_alter (now : Z) (d : database) (k : string)
    (g : outgoing_delivery → outgoing_delivery) (f : delivery_location) :
  (∀ od, status (g od) = status od) →
  purged now (Tracker.with_deliveries (alter g k) d) f = purged now d f.
Proof.
  intros Hg. unfold purged. f_equal. simpl. rewrite lookup_alter.
  case_decide as Hk; [| done]. subst k.
  destruct (outgoing_deliveries d !! delivery_id f) as [od |]; simpl;
    [by rewrite Hg | done].
Qed.

Lemma cleanup_log_alter (now : Z) (d : database) (k : string)
    (g : outgoing_delivery → outgoing_delivery) :
  (∀ od, status (g od) = status od) →
  delivery_locations
    (cleanup_old_location_data now (Tracker.with_deliveries (alter g k) d))
  = delivery_locations (cleanup_old_location_data now d).
Proof.
  intros Hg. simpl. apply list_filter_iff. intros f.
  by rewrite purged_alter.
Qed.

(** X10. Starting and completing a delivery in the driver's application does
    not change what the cleanup keeps: [startTracking] and [stopTracking]
    write [tracking_status], the cleanup reads [status]. *)
Theorem tracking_does_not_release_fixes (now : Z)
    (session : Tracker.TrackingSession) (w : Tracker.World) :
  delivery_locations
    (cleanup_old_location_data now
       (Tracker.db (Tracker.backend (snd (Tracker.startTracking session w)))))
  = delivery_locations
      (cleanup_old_location_data now (Tracker.db (Tracker.backend w))) ∧
  delivery_locations
    (cleanup_old_location_data now
       (Tracker.db (Tracker.backend (snd (Tracker.stopTracking w)))))
  = delivery_locations
      (cleanup_old_location_data now (Tracker.db (Tracker.backend w))).
Proof.
  destruct w as [[cs it fs] [fg bg ws nh tr] [d acc sn gen] clk con].
  split.
  - destruct it, fg, bg, acc; try reflexivity;
      apply (cleanup_log_alter now d); reflexivity.
  - destruct it, fs, tr, cs, acc; try reflexivity;
      apply (cleanup_log_alter now d); reflexivity.
Qed.

End Purge.

(** ** The fixes the sampler sends *)

Section Fixes.

Import Tracker.

Implicit Types (w : World) (location : LocationObject).

Local Abbreviation deliveries w := (Sql.outgoing_deliveries (db (backend w))).
Local Abbreviation log w := (Sql.delivery_locations (db (backend w))).

(** What [sendLocationUpdate] does, in one place: it touches neither the
    service nor the device; with a session and a datastore that lets the
    request through it tries the insert of one row; an insert that does not
    go through is logged. *)
Lemma sendLocationUpdate_effect location w :
  service (snd (sendLocationUpdate location w)) = service w ∧
  device (snd (sendLocationUpdate location w)) = device w ∧
  clock (snd (sendLocationUpdate location w)) = clock w ∧
  accepts (backend (snd (sendLocationUpdate location w)))
    = accepts (backend w) ∧
  server_now (backend (snd (sendLocationUpdate location w)))
    = server_now (backend w) ∧
  match currentSession (service w) with
  | None => snd (sendLocationUpdate location w) = w
  | Some session =>
      let v := location_row (backend w) session (coords location) in
      if accepts (backend w) then
        db (backend (snd (sendLocationUpdate location w)))
          = Sql.ingest_values (db (backend w)) v ∧
        console (snd (sendLocationUpdate location w)) =
          match Sql.insert_values v (db (backend w)) with
          | Returned _ => console w
          | Raised _ =>
              console w ++ [(error, "Failed to send location update:")]
          end
      else
        db (backend (snd (sendLocationUpdate location w))) = db (backend w) ∧
        console (snd (sendLocationUpdate location w)) =
          console w ++ [(error, "Failed to send location update:")]
  end.
Proof.
  destruct w as [[cs it fs] dev [d acc sn gen] clk con].
  unfold sendLocationUpdate, insert_delivery_location, bind, gets. simpl.
  destruct cs as [session |]; simpl; [| done].
  destruct acc; simpl; [| done].
  unfold Sql.ingest_values.
  destruct (Sql.insert_values _ d) as [d' | e]; simpl; done.
Qed.

(** X11. A fix sent during a session reaches the delivery unless a number
    of it is out of the range of its column: when the datastore lets the
    insert through, the delivery and the driver of the session exist and
    the new identifier is not taken, [sendLocationUpdate] gives the
    coordinates the types of the columns; if they fit, it appends one row
    for the delivery and the driver of the session with the coordinates
    so rounded, the trigger copies them to the snapshot of the delivery
    (with the time of the server), the tracking status stays, and nothing
    is logged; if one does not fit, the datastore stays as it is and the
    error is logged. *)
Theorem sendLocationUpdate_reaches_delivery location w session od :
  currentSession (service w) = Some session →
  accepts (backend w) = true →
  deliveries w !! deliveryId session = Some od →
  driverId session ∈ Sql.drivers (db (backend w)) →
  pretty (generated (backend w)) ∉ Sql.id <$> log w →
  match Sql.coerce (location_row (backend w) session (coords location)) with
  | Returned row =>
      Sql.typmod 10 8 (latitude (coords location))
        = Returned (Sql.latitude row) ∧
      Sql.typmod 11 8 (longitude (coords location))
        = Returned (Sql.longitude row) ∧
      Sql.typmod_null 6 2 (speed (coords location))
        = Returned (Sql.speed row) ∧
      Sql.typmod_null 5 2 (heading (coords location))
        = Returned (Sql.heading row) ∧
      Sql.delivery_id row = deliveryId session ∧
      Sql.driver_id row = Some (driverId session) ∧
      Sql.recorded_at row = server_now (backend w) ∧
      log (snd (sendLocationUpdate location w)) = log w ++ [row] ∧
      console (snd (sendLocationUpdate location w)) = console w ∧
      ∃ od',
        deliveries (snd (sendLocationUpdate location w)) !! deliveryId session
          = Some od' ∧
        Sql.snapshot_of od' = Sql.fix_fields row ∧
        Sql.tracking_status od' = Sql.tracking_status od
  | Raised e =>
      e = numeric_value_out_of_range ∧
      db (backend (snd (sendLocationUpdate location w))) = db (backend w) ∧
      console (snd (sendLocationUpdate location w))
        = console w ++ [(error, "Failed to send location update:")]
  end.
Proof.
  intros Hsession Haccepts Hod Hdriver Hfresh.
  destruct (sendLocationUpdate_effect location w) as (_ & _ & _ & _ & _ & H).
  rewrite Hsession, Haccepts in H. simpl in H. destruct H as [Hdb Hcon].
  unfold Sql.ingest_values, Sql.insert_values in Hdb, Hcon.
  destruct (Sql.coerce (location_row (backend w) session (coords location)))
    as [row | e] eqn:Hrow; simpl in Hdb, Hcon.
  - apply coerce_Returned in Hrow
      as (Hid & Hd & Hdrv & Hrec & Hlat & Hlon & Hspd & Hhdg).
    simpl in Hid, Hd, Hdrv, Hrec, Hlat, Hlon, Hspd, Hhdg.
    assert (Hins : ∃ d', Sql.insert_delivery_location row (db (backend w))
                         = Returned d').
    { unfold Sql.insert_delivery_location.
      rewrite bool_decide_eq_false_2 by (by rewrite Hid).
      rewrite bool_decide_eq_false_2 by (by rewrite Hd, Hod).
      rewrite Hdrv. rewrite bool_decide_eq_true_2 by exact Hdriver. eauto. }
    destruct Hins as [d' Hins]. rewrite Hins in Hdb, Hcon.
    apply insert_delivery_location_Returned in Hins as (_ & Hlog & Hods).
    rewrite Hdb, Hlog, Hods.
    split_and!; try done.
    exists (Sql.set_current_location row od).
    split_and!; try reflexivity.
    by rewrite Hd, lookup_alter_eq, Hod.
  - apply coerce_Raised in Hrow. done.
Qed.

(** X12. A fix that cannot be stored is logged and dropped: when the datastore
    does not let the insert through, [sendLocationUpdate] leaves the
    datastore as it is and logs one error; the session, the tracking flag
    and the subscriptions stay, so the next fix is sent all the same. *)
Theorem sendLocationUpdate_drops_on_refusal location w session :
  currentSession (service w) = Some session →
  accepts (backend w) = false →
  db (backend (snd (sendLocationUpdate location w))) = db (backend w) ∧
  console (snd (sendLocationUpdate location w))
    = console w ++ [(error, "Failed to send location update:")] ∧
  service (snd (sendLocationUpdate location w)) = service w ∧
  device (snd (sendLocationUpdate location w)) = device w.
Proof.
  intros Hsession Hrefused.
  destruct (sendLocationUpdate_effect location w)
    as (Hservice & Hdevice & _ & _ & _ & H).
  rewrite Hsession, Hrefused in H. simpl in H. destruct H as [Hdb Hcon].
  done.
Qed.

Lemma sendLocationUpdate_log location w :
  log (snd (sendLocationUpdate location w)) = log w ∨
  ∃ session row,
    currentSession (service w) = Some session ∧
    Sql.coerce (location_row (backend w) session (coords location))
      = Returned row ∧
    log (snd (sendLocationUpdate location w)) = log w ++ [row].
Proof.
  destruct (sendLocationUpdate_effect location w) as (_ & _ & _ & _ & _ & H).
  destruct (currentSession (service w)) as [session |]; [| left; by rewrite H].
  simpl in H. destruct (accepts (backend w)); destruct H as [-> _];
    [| by left].
  destruct (ingest_values_cases (db (backend w))
              (location_row (backend w) session (coords location)))
    as [-> | (row & Hrow & ->)]; [by left |].
  destruct (ingest_log (db (backend w)) row) as [-> | [_ ->]]; [by left |].
  right. by exists session, row.
Qed.

(** X13. Of a batch of locations given to the background task only the first is
    sent: the outcome does not depend on the rest of the batch, at most one
    row is appended, and a batch that comes with an error is not sent at
    all. *)
Theorem background_task_sends_first_only
    (data : option (list LocationObject)) (err : option string) w :
  (∀ first rest,
     background_task (Some (first :: rest)) None w
       = background_task (Some [first]) None w) ∧
  (length (log (snd (background_task data err w))) <= S (length (log w)))%nat ∧
  log w `prefix_of` log (snd (background_task data err w)) ∧
  (is_Some err → backend (snd (background_task data err w)) = backend w).
Proof.
  split_and!.
  - reflexivity.
  - destruct err as [msg |]; simpl; [lia |].
    destruct data as [[| first rest] |]; simpl; try lia.
    destruct (sendLocationUpdate_log first w) as [-> | (s & r & _ & _ & ->)];
      [lia |].
    rewrite length_app. simpl. lia.
  - destruct err as [msg |]; simpl; [done |].
    destruct data as [[| first rest] |]; simpl; try done.
    destruct (sendLocationUpdate_log first w) as [-> | (s & r & _ & _ & ->)];
      [done |].
    by apply prefix_app_r.
  - intros [msg ->]. reflexivity.
Qed.

Lemma sendLocationUpdate_reaches_delivery_witness :
  ∃ row od',
    log (snd (sendLocationUpdate Examples.here
                (Examples.started granted granted true))) = [row] ∧
    Sql.delivery_id row = "d1" ∧
    deliveries (snd (sendLocationUpdate Examples.here
                       (Examples.started granted granted true))) !! "d1"
      = Some od' ∧
    Sql.snapshot_of od'
      = (Some (6017000000 # 100000000)%Q, Some (2494000000 # 100000000)%Q,
         Some (300 # 100)%Q, None, Some 1000) ∧
    Sql.tracking_status od' = Some Sql.in_transit.
Proof.
  pose proof (sendLocationUpdate_reaches_delivery Examples.here
                (Examples.started granted granted true) Examples.session1
                (mark_in_transit 990 Examples.od_pending)) as H.
  destruct (Sql.coerce
              (location_row (backend (Examples.started granted granted true))
                 Examples.session1 (coords Examples.here)))
    as [row | e] eqn:Hrow; [| by vm_compute in Hrow].
  destruct H as (_ & _ & _ & _ & Hd & _ & _ & Hlog & _ & od' & Hod' & Hsnap
                 & Hts).
  - reflexivity.
  - reflexivity.
  - vm_compute. reflexivity.
  - vm_compute. set_solver.
  - simpl. apply not_elem_of_nil.
  - exists row, od'. split_and!; [exact Hlog | exact Hd | exact Hod' | |].
    + rewrite Hsnap. vm_compute in Hrow. by injection Hrow as <-.
    + rewrite Hts. reflexivity.
Defined.

(** A speed that does not fit its column: the insert is refused, the row
    is not stored and the error is logged. *)
Example sendLocationUpdate_refuses_speed :
  Sql.coerce
    (location_row (backend (Examples.started granted granted true))
       Examples.session1 (coords Examples.too_fast))
    = Raised numeric_value_out_of_range ∧
  log (snd (sendLocationUpdate Examples.too_fast
              (Examples.started granted granted true))) = [] ∧
  console (snd (sendLocationUpdate Examples.too_fast
                  (Examples.started granted granted true)))
    = [(error, "Failed to send location update:")].
Proof. by vm_compute. Qed.

Lemma sendLocationUpdate_drops_on_refusal_witness :
  db (backend
        (snd (sendLocationUpdate Examples.here
                (Examples.cut_off (Examples.started granted granted true)))))
    = db (backend (Examples.cut_off (Examples.started granted granted true))) ∧
  isTracking
    (service
       (snd (sendLocationUpdate Examples.here
               (Examples.cut_off (Examples.started granted granted true)))))
    = true.
Proof.
  destruct (sendLocationUpdate_drops_on_refusal Examples.here
              (Examples.cut_off (Examples.started granted granted true))
              Examples.session1)
    as (Hdb & _ & Hservice & _).
  - reflexivity.
  - reflexivity.
  - split; [exact Hdb |]. rewrite Hservice. reflexivity.
Defined.

End Fixes.

(** ** The life of the sampler *)

Section Life.

Import Tracker Drive.

Implicit Types (w : World) (o : op) (ops : list op).

Local Abbreviation deliveries w := (Sql.outgoing_deliveries (db (backend w))).
Local Abbreviation log w := (Sql.delivery_locations (db (backend w))).

Lemma on_position_cases h location w :
  on_position h location w = (tt, w) ∨
  on_position h location w = sendLocationUpdate location w.
Proof.
  unfold on_position, bind, gets. simpl.
  destruct (bool_decide (h ∈ watchers (device w))); simpl; [by right |].
  by left.
Qed.

Lemma perform_tracks_with_session o w :
  (isTracking (service w) = true → is_Some (currentSession (service w))) →
  isTracking (service (snd (perform o w))) = true →
  is_Some (currentSession (service (snd (perform o w)))).
Proof.
  intros Hw. destruct o as [session | | h location | data err | fg bg
                            | lets_through | c s]; simpl.
  - destruct w as [[cs it fs] [fg bg ws nh tr] [d acc sn gen] clk con].
    simpl in *. destruct it; [by destruct fg, bg |].
    destruct fg, bg, acc; simpl; eauto; discriminate.
  - destruct w as [[cs it fs] [fg bg ws nh tr] [d acc sn gen] clk con].
    simpl in *. destruct it; [| done].
    destruct fs as [h |], tr, cs as [session |], acc; simpl; discriminate.
  - destruct (on_position_cases h location w) as [-> | ->]; [done |].
    destruct (sendLocationUpdate_effect location w) as (-> & _). done.
  - destruct err as [msg |]; simpl; [done |].
    destruct data as [[| first rest] |]; simpl; try done.
    destruct (sendLocationUpdate_effect first w) as (-> & _). done.
  - done.
  - done.
  - done.
Qed.

(** X14. Tracking is never on without a session: through any sequence of
    calls, callbacks and changes around the sampler, if [isTracking] is
    set then [currentSession] is set, provided it was so at the start.
    ([startTracking] sets the session before the flag, [stopTracking]
    clears the two together.) *)
Theorem sampler_tracks_with_session ops w :
  (isTracking (service w) = true → is_Some (currentSession (service w))) →
  isTracking (service (run_ops ops w)) = true →
  is_Some (currentSession (service (run_ops ops w))).
Proof.
  unfold run_ops. revert w.
  induction ops as [| o ops IH]; intros w Hw; simpl; [done |].
  by apply IH, perform_tracks_with_session.
Qed.

Lemma sampler_tracks_with_session_witness :
  is_Some
    (currentSession
       (service
          (run_ops [StartTracking Examples.session1;
                    Position 0 Examples.here;
                    StopTracking;
                    Datastore false;
                    StartTracking Examples.session1]
                   (Examples.idle granted granted true)))).
Proof.
  apply (sampler_tracks_with_session
           [StartTracking Examples.session1;
            Position 0 Examples.here;
            StopTracking;
            Datastore false;
            StartTracking Examples.session1]
           (Examples.idle granted granted true)).
  - discriminate.
  - reflexivity.
Defined.

Lemma startTracking_frame session w :
  log (snd (startTracking session w)) = log w ∧
  dom (deliveries (snd (startTracking session w))) = dom (deliveries w) ∧
  Sql.drivers (db (backend (snd (startTracking session w))))
    = Sql.drivers (db (backend w)) ∧
  Sql.restaurants (db (backend (snd (startTracking session w))))
    = Sql.restaurants (db (backend w)) ∧
  (currentSession (service (snd (startTracking session w)))
     = currentSession (service w) ∨
   currentSession (service (snd (startTracking session w))) = Some session).
Proof.
  destruct w as [[cs it fs] [fg bg ws nh tr] [d acc sn gen] clk con].
  destruct it, fg, bg, acc; simpl; split_and!;
    try reflexivity; try apply dom_alter_L; try (by left); by right.
Qed.

Lemma stopTracking_frame w :
  log (snd (stopTracking w)) = log w ∧
  dom (deliveries (snd (stopTracking w))) = dom (deliveries w) ∧
  Sql.drivers (db (backend (snd (stopTracking w))))
    = Sql.drivers (db (backend w)) ∧
  Sql.restaurants (db (backend (snd (stopTracking w))))
    = Sql.restaurants (db (backend w)) ∧
  (currentSession (service (snd (stopTracking w)))
     = currentSession (service w) ∨
   currentSession (service (snd (stopTracking w))) = None).
Proof.
  destruct w as [[cs it fs] [fg bg ws nh tr] [d acc sn gen] clk con].
  destruct it, fs, tr, cs, acc; simpl; split_and!;
    try reflexivity; try apply dom_alter_L; try (by left); by right.
Qed.

(** One step of the sampler: what it appends, and which session it
    leaves. *)
Lemma perform_appends o w :
  (∃ new,
     log (snd (perform o w)) = log w ++ new ∧
     ∀ row, row ∈ new →
       ∃ session,
         currentSession (service w) = Some session ∧
         Sql.delivery_id row = deliveryId session ∧
         Sql.driver_id row = Some (driverId session)) ∧
  (∀ session,
     currentSession (service (snd (perform o w))) = Some session →
     currentSession (service w) = Some session ∨ o = StartTracking session) ∧
  dom (deliveries (snd (perform o w))) = dom (deliveries w) ∧
  Sql.drivers (db (backend (snd (perform o w)))) = Sql.drivers (db (backend w)) ∧
  Sql.restaurants (db (backend (snd (perform o w))))
    = Sql.restaurants (db (backend w)).
Proof.
  assert (Hnone : ∀ w', log w' = log w → ∃ new,
      log w' = log w ++ new ∧
      ∀ row, row ∈ new →
        ∃ session,
          currentSession (service w) = Some session ∧
          Sql.delivery_id row = deliveryId session ∧
          Sql.driver_id row = Some (driverId session)).
  { intros w' ->. exists []. split; [by rewrite app_nil_r |].
    intros row Hrow. by apply elem_of_nil in Hrow. }
  assert (Hsend : ∀ location,
    (∃ new,
       log (snd (sendLocationUpdate location w)) = log w ++ new ∧
       ∀ row, row ∈ new →
         ∃ session,
           currentSession (service w) = Some session ∧
           Sql.delivery_id row = deliveryId session ∧
           Sql.driver_id row = Some (driverId session)) ∧
    (∀ session,
       currentSession (service (snd (sendLocationUpdate location w)))
         = Some session →
       currentSession (service w) = Some session
       ∨ o = StartTracking session) ∧
    dom (deliveries (snd (sendLocationUpdate location w)))
      = dom (deliveries w) ∧
    Sql.drivers (db (backend (snd (sendLocationUpdate location w))))
      = Sql.drivers (db (backend w)) ∧
    Sql.restaurants (db (backend (snd (sendLocationUpdate location w))))
      = Sql.restaurants (db (backend w))).
  { intros location.
    destruct (sendLocationUpdate_effect location w)
      as (Hs & _ & _ & _ & _ & H).
    split_and!.
    - destruct (sendLocationUpdate_log location w)
        as [Heq | (s & r & Hsess & Hr & ->)]; [by apply Hnone |].
      eexists. split; [reflexivity |].
      intros row ->%list_elem_of_singleton. exists s.
      apply coerce_Returned in Hr as (_ & Hd & Hdrv & _). done.
    - intros session. rewrite Hs. by left.
    - destruct (currentSession (service w)) as [s |]; [| by rewrite H].
      simpl in H. destruct (accepts (backend w)); destruct H as [-> _];
        [| done].
      apply ingest_values_dom.
    - destruct (currentSession (service w)) as [s |]; [| by rewrite H].
      simpl in H. destruct (accepts (backend w)); destruct H as [-> _];
        [| done].
      apply ingest_values_dom.
    - destruct (currentSession (service w)) as [s |]; [| by rewrite H].
      simpl in H. destruct (accepts (backend w)); destruct H as [-> _];
        [| done].
      apply ingest_values_dom. }
  destruct o as [session | | h location | data err | fg bg
                 | lets_through | c s].
  - assert (Hp : snd (perform (StartTracking session) w)
                 = snd (startTracking session w)).
    { unfold perform, bind. by destruct (startTracking session w). }
    rewrite Hp.
    destruct (startTracking_frame session w)
      as (Hlog & Hdom & Hdrv & Hres & Hsess).
    split_and!; try done; [by apply Hnone |].
    intros s' Hs'. destruct Hsess as [Heq | Heq]; rewrite Heq in Hs'.
    + by left.
    + injection Hs' as <-. by right.
  - simpl.
    destruct (stopTracking_frame w) as (Hlog & Hdom & Hdrv & Hres & Hsess).
    split_and!; try done; [by apply Hnone |].
    intros s' Hs'. destruct Hsess as [Heq | Heq]; rewrite Heq in Hs';
      [by left | discriminate].
  - simpl. destruct (on_position_cases h location w) as [-> | ->];
      [| by apply Hsend].
    simpl. split_and!; try done; [by apply Hnone | by left].
  - simpl. destruct err as [msg |]; simpl.
    { split_and!; try done; [by apply Hnone | by left]. }
    destruct data as [[| first rest] |]; simpl;
      try (split_and!; try done; [by apply Hnone | by left]).
    by apply Hsend.
  - simpl. split_and!; try done; [by apply Hnone | by left].
  - simpl. split_and!; try done; [by apply Hnone | by left].
  - simpl. split_and!; try done; [by apply Hnone | by left].
Qed.

(** X15. The sampler only appends, and only for its sessions: through any
    sequence of calls and callbacks the rows stored before stay at the head
    of the log, each row added carries the delivery and the driver of the
    session that was active at the start or of a session given to
    [startTracking] in the sequence, no delivery appears or disappears, and
    the drivers and the restaurants are as before. *)
Theorem sampler_appends_for_its_sessions ops w :
  (∃ new,
     log (run_ops ops w) = log w ++ new ∧
     ∀ row, row ∈ new →
       ∃ session,
         (currentSession (service w) = Some session
          ∨ session ∈ sessions_of ops) ∧
         Sql.delivery_id row = deliveryId session ∧
         Sql.driver_id row = Some (driverId session)) ∧
  dom (deliveries (run_ops ops w)) = dom (deliveries w) ∧
  Sql.drivers (db (backend (run_ops ops w))) = Sql.drivers (db (backend w)) ∧
  Sql.restaurants (db (backend (run_ops ops w)))
    = Sql.restaurants (db (backend w)).
Proof.
  unfold run_ops. revert w.
  induction ops as [| o ops IH]; intros w; simpl.
  - split_and!; try done. exists []. split; [by rewrite app_nil_r |].
    intros row Hrow. by apply elem_of_nil in Hrow.
  - destruct (IH (snd (perform o w)))
      as ((new2 & Hlog2 & Hnew2) & Hdom2 & Hdrv2 & Hres2).
    destruct (perform_appends o w)
      as ((new1 & Hlog1 & Hnew1) & Hsess & Hdom1 & Hdrv1 & Hres1).
    split_and!; [| congruence | congruence | congruence].
    exists (new1 ++ new2). split.
    + by rewrite Hlog2, Hlog1, <- app_assoc.
    + intros row [Hrow | Hrow]%elem_of_app.
      * destruct (Hnew1 row Hrow) as (s & Hs & Hd & Hdr).
        exists s. split_and!; [by left | done | done].
      * destruct (Hnew2 row Hrow) as (s & [Hs | Hs] & Hd & Hdr).
        -- exists s. split_and!; [| done | done].
           destruct (Hsess s Hs) as [Hw | ->]; [by left |].
           right. simpl. apply elem_of_cons. by left.
        -- exists s. split_and!; [| done | done].
           right. unfold sessions_of. simpl.
           destruct o; try exact Hs. apply elem_of_cons. by right.
Qed.

(** X16. A delivery driven from start to end: with the foreground permission
    and a datastore that lets the updates through, [startTracking] followed
    by [stopTracking] brings the service back to rest (no session, not
    tracking, no subscription of its own, no background task), leaves the
    log alone, and leaves the delivery [delivered] with its times of start
    and end set and its snapshot and [status] untouched. *)
Theorem start_then_stop session w od :
  isTracking (service w) = false →
  foregroundStatus (device w) = granted →
  accepts (backend w) = true →
  deliveries w !! deliveryId session = Some od →
  service (snd (stopTracking (snd (startTracking session w)))) =
    {| currentSession := None;
       isTracking := false;
       foregroundSubscription := None |} ∧
  (next_handle (device w)
     ∉ watchers (device (snd (stopTracking (snd (startTracking session w)))))) ∧
  task_registered
    (device (snd (stopTracking (snd (startTracking session w))))) = false ∧
  log (snd (stopTracking (snd (startTracking session w)))) = log w ∧
  ∃ od',
    deliveries (snd (stopTracking (snd (startTracking session w))))
      !! deliveryId session = Some od' ∧
    Sql.tracking_status od' = Some Sql.delivered ∧
    Sql.tracking_started_at od' = Some (clock w) ∧
    Sql.tracking_ended_at od' = Some (clock w) ∧
    Sql.snapshot_of od' = Sql.snapshot_of od ∧
    Sql.status od' = Sql.status od.
Proof.
  destruct w as [[cs it fs] [fg bg ws nh tr] [d acc sn gen] clk con].
  simpl. intros -> -> -> Hod.
  destruct bg, tr; simpl; split_and!; try reflexivity;
    try (apply not_elem_of_difference; right; by apply elem_of_singleton).
  all: exists (mark_delivered clk (mark_in_transit clk od)).
  all: split; [| done].
  all: by rewrite !lookup_alter_eq, Hod.
Qed.

Lemma start_then_stop_witness :
  ∃ od',
    deliveries
      (snd (stopTracking
              (snd (startTracking Examples.session1
                      (Examples.idle granted denied true))))) !! "d1"
      = Some od' ∧
    Sql.tracking_status od' = Some Sql.delivered ∧
    Sql.tracking_started_at od' = Some 990 ∧
    Sql.tracking_ended_at od' = Some 990.
Proof.
  destruct (start_then_stop Examples.session1
              (Examples.idle granted denied true) Examples.od_pending)
    as (_ & _ & _ & _ & od' & Hod' & Hts & Hstart & Hend & _).
  - reflexivity.
  - reflexivity.
  - reflexivity.
  - vm_compute. reflexivity.
  - exists od'. split_and!; [exact Hod' | exact Hts | exact Hstart | exact Hend].
Defined.

End Life.

(** ** The history the subscriber fetches *)

Section Fetch.

Import Subscriber.

#[local] Instance recorded_desc_total : Total recorded_desc.
Proof. intros a b. unfold recorded_desc. lia. Qed.

#[local] Instance recorded_desc_trans : Transitive recorded_desc.
Proof. intros a b c. unfold recorded_desc. lia. Qed.

(** X17. The fetch of the history returns the most recent fixes of the
    delivery, newest first: the rows returned and the rows left out are
    together the fixes of the delivery in the log, the rows returned are in
    the order of [recorded_at] descending, no row left out was recorded
    after a row returned, and every row returned is a stored fix of this
    delivery. *)
Theorem select_history_most_recent (deliveryId : string) (d : Sql.database) :
  ∃ older,
    select_history deliveryId d ++ older
      ≡ₚ Sql.fixes_of deliveryId (Sql.delivery_locations d) ∧
    StronglySorted recorded_desc (select_history deliveryId d) ∧
    (∀ x y, x ∈ select_history deliveryId d → y ∈ older →
            Sql.recorded_at y <= Sql.recorded_at x) ∧
    (∀ x, x ∈ select_history deliveryId d →
          Sql.delivery_id x = deliveryId ∧ x ∈ Sql.delivery_locations d).
Proof.
  unfold select_history, Sql.fixes_of.
  set (fixes := filter (λ r, Sql.delivery_id r = deliveryId)
                       (Sql.delivery_locations d)).
  set (sorted := merge_sort recorded_desc fixes).
  assert (Hsorted : StronglySorted recorded_desc sorted)
    by (apply StronglySorted_merge_sort; apply _).
  assert (Hperm : sorted ≡ₚ fixes) by apply merge_sort_Permutation.
  rewrite <- (take_drop 100 sorted) in Hsorted.
  exists (drop 100 sorted). split_and!.
  - by rewrite take_drop.
  - by eapply StronglySorted_app_1_l.
  - intros x y Hx Hy.
    by apply (StronglySorted_app_1_elem_of recorded_desc _ _ x y Hsorted).
  - intros x Hx.
    assert (Hin : x ∈ fixes).
    { rewrite <- Hperm. rewrite <- (take_drop 100 sorted).
      apply elem_of_app. by left. }
    by apply list_elem_of_filter in Hin.
Qed.

(** X18. With at most 100 fixes of the delivery in the log, the fetch returns
    them all. *)
Theorem select_history_complete (deliveryId : string) (d : Sql.database) :
  (length (Sql.fixes_of deliveryId (Sql.delivery_locations d)) <= 100)%nat →
  select_history deliveryId d
    ≡ₚ Sql.fixes_of deliveryId (Sql.delivery_locations d).
Proof.
  intros Hlen. unfold select_history, Sql.fixes_of in *.
  rewrite take_ge.
  - apply merge_sort_Permutation.
  - by rewrite merge_sort_Permutation.
Qed.

Lemma select_history_complete_witness :
  select_history "d1" Scenarios.db_closed
    ≡ₚ Sql.fixes_of "d1" (Sql.delivery_locations Scenarios.db_closed).
Proof.
  apply (select_history_complete "d1" Scenarios.db_closed).
  vm_compute. lia.
Defined.

(** X19. How a fetch ends. With a [deliveryId] the hook is no longer loading
    afterwards, whatever happened; the error is clear exactly when both
    requests came back and the delivery exists, and then the history is the
    one fetched. A fetch that fails discards nothing: when the first
    request fails (or finds no delivery) the position, the tracking info,
    the history and the time of the last update are as before, and when
    the second fails the history is as before. Without a [deliveryId]
    nothing changes at all, so the hook stays loading. *)
Theorem fetch_outcome (c : Ascii.ascii) (s : string) (d : Sql.database)
    (ok1 ok2 : bool) (st : State) :
  isLoading (fetchTrackingData (Some (String c s)) d ok1 ok2 st) = false ∧
  (error (fetchTrackingData (Some (String c s)) d ok1 ok2 st) = None ↔
   ok1 = true ∧ ok2 = true ∧
   is_Some (Sql.outgoing_deliveries d !! String c s)) ∧
  (error (fetchTrackingData (Some (String c s)) d ok1 ok2 st) = None →
   locationHistory (fetchTrackingData (Some (String c s)) d ok1 ok2 st)
     = select_history (String c s) d) ∧
  (ok1 = false ∨ Sql.outgoing_deliveries d !! String c s = None →
   currentLocation (fetchTrackingData (Some (String c s)) d ok1 ok2 st)
     = currentLocation st ∧
   trackingInfo (fetchTrackingData (Some (String c s)) d ok1 ok2 st)
     = trackingInfo st ∧
   locationHistory (fetchTrackingData (Some (String c s)) d ok1 ok2 st)
     = locationHistory st ∧
   lastUpdate (fetchTrackingData (Some (String c s)) d ok1 ok2 st)
     = lastUpdate st) ∧
  (ok2 = false →
   locationHistory (fetchTrackingData (Some (String c s)) d ok1 ok2 st)
     = locationHistory st) ∧
  fetchTrackingData None d ok1 ok2 st = st ∧
  fetchTrackingData (Some "") d ok1 ok2 st = st ∧
  isLoading (fetchTrackingData None d ok1 ok2 initial) = true.
Proof.
  unfold fetchTrackingData.
  destruct ok1, ok2,
    (Sql.outgoing_deliveries d !! String c s) as [delivery |] eqn:Hd;
    simpl; rewrite ?Hd; simpl; split_and!; try done;
    try (split; [done | by intros (? & ? & ?)]);
    try (split; [done | intros (? & ? & [? ?]); done]);
    try (split; [done | intros _; split_and!; eauto; done]);
    try (by intros [? | ?]).
Qed.

End Fetch.

(** ** What the web client shows *)

Section Shown.

Import Subscriber View.

Variable timestamp_text : Z → string.

(** X20. The client follows the projector: when a row was inserted and the
    event of the insert reaches a hook that has its tracking info, the
    snapshot in the tracking info is the snapshot the trigger wrote on the
    delivery, the marker is at the coordinates of the row, the time of the
    last update is its [recorded_at] cut to the millisecond (the tracking
    info keeps the text of it, the time of the last update is a [Date]),
    and the row is at the head of the history. *)
Theorem client_follows_projector (row : Sql.delivery_location)
    (d d' : Sql.database) (st : State) (info : DeliveryTrackingInfo) :
  Sql.insert_delivery_location row d = Returned d' →
  trackingInfo st = Some info →
  ∃ od' info',
    Sql.outgoing_deliveries d' !! Sql.delivery_id row = Some od' ∧
    trackingInfo (on_insert row st) = Some info' ∧
    (current_latitude info', current_longitude info', current_speed info',
     current_heading info', last_location_update info')
      = Sql.snapshot_of od' ∧
    tracking_started_at info' = tracking_started_at info ∧
    tracking_ended_at info' = tracking_ended_at info ∧
    currentLocation (on_insert row st)
      = Some {| lat := Sql.latitude row; lng := Sql.longitude row |} ∧
    lastUpdate (on_insert row st) = Some (new_Date (Sql.recorded_at row)) ∧
    head (locationHistory (on_insert row st)) = Some row.
Proof.
  intros Hins Hinfo.
  apply insert_delivery_location_Returned in Hins as ([od Hod] & _ & ->).
  assert (Hinfo' : ∃ info',
    trackingInfo (on_insert row st) = Some info' ∧
    (current_latitude info', current_longitude info', current_speed info',
     current_heading info', last_location_update info')
      = Sql.fix_fields row ∧
    tracking_started_at info' = tracking_started_at info ∧
    tracking_ended_at info' = tracking_ended_at info).
  { simpl. rewrite Hinfo. simpl. eexists. split; [reflexivity |]. done. }
  destruct Hinfo' as (info' & Hinfo' & Hsnap & Hstart & Hend).
  exists (Sql.set_current_location row od), info'.
  split_and!; try done.
  by rewrite lookup_alter_eq, Hod.
Qed.

(** X21. The trail ends at the marker: after the event of an insert the last
    point of the route is the position of the row, which is also the
    centre of the map, and the route has at most 100 points. *)
Theorem trail_ends_at_marker (row : Sql.delivery_location) (st : State)
    (restaurantLocation : option Coordinates) :
  last (routePath (on_insert row st))
    = Some (Sql.latitude row, Sql.longitude row) ∧
  mapCenter restaurantLocation (on_insert row st)
    = (Sql.latitude row, Sql.longitude row) ∧
  (length (routePath (on_insert row st)) <= 100)%nat.
Proof.
  unfold routePath. split_and!.
  - rewrite last_reverse. reflexivity.
  - reflexivity.
  - rewrite length_reverse, length_fmap. simpl.
    rewrite length_take. lia.
Qed.

(** X22. Live positions never move the status: after any number of events of
    inserts the remaining distance, the estimate and the status of the
    sheet are what they were. The distance comes from the fetch alone, so
    no live position makes a delivery "arriving soon". *)
Theorem inserts_keep_status (rows : list Sql.delivery_location) (st : State) :
  distanceRemaining (foldl (fun st row => on_insert row st) st rows)
    = distanceRemaining st ∧
  estimatedArrival (foldl (fun st row => on_insert row st) st rows)
    = estimatedArrival st ∧
  trackingStatus timestamp_text
    (foldl (fun st row => on_insert row st) st rows)
    = trackingStatus timestamp_text st.
Proof.
  revert st. induction rows as [| row rows IH]; intros st; simpl; [done |].
  destruct (IH (on_insert row st)) as (-> & -> & ->).
  unfold distanceRemaining, estimatedArrival, trackingStatus, time_field,
    distanceRemaining.
  simpl. by destruct (trackingInfo st).
Qed.

(** X23. The list of active deliveries shows every delivery as pending: the
    badge is given the column [tracking_status], none of whose values
    ([pending], [in_transit], [delivered], NULL) is a status the badge
    knows. *)
Theorem list_badge_is_always_pending (delivery : Sql.outgoing_delivery) :
  list_badge delivery
    = {| variant := Some "secondary";
         className := None;
         badge_icon := Clock;
         icon_className := "w-3 h-3 mr-1";
         text := "Pending" |}.
Proof.
  unfold list_badge. by destruct (Sql.tracking_status delivery) as [[| |] |].
Qed.

Lemma time_field_truthy (f : DeliveryTrackingInfo → option Z) (st : State) :
  (∀ t, timestamp_text t ≠ "") →
  truthy (time_field timestamp_text f st)
    = bool_decide (is_Some (trackingInfo st ≫= f)).
Proof.
  intros Htext. unfold time_field.
  destruct (trackingInfo st) as [info |]; simpl; [| done].
  destruct (f info) as [t |]; simpl; [| done].
  specialize (Htext t). by destruct (timestamp_text t).
Qed.

(** X24. The badge of the sheet reads "Arrived" exactly when the tracking info
    has a time of end, and "Pending" exactly when there is neither a time
    of end nor a time of start (or no tracking info yet). *)
Theorem sheet_badge_text (st : State) :
  (∀ t, timestamp_text t ≠ "") →
  (text (sheet_badge timestamp_text st) = "Arrived" ↔
   is_Some (trackingInfo st ≫= tracking_ended_at)) ∧
  (text (sheet_badge timestamp_text st) = "Pending" ↔
   trackingInfo st ≫= tracking_ended_at = None ∧
   trackingInfo st ≫= tracking_started_at = None).
Proof.
  intros Htext. unfold sheet_badge, trackingStatus, getTrackingStatus.
  rewrite !time_field_truthy by done.
  destruct (trackingInfo st ≫= tracking_ended_at) as [te |];
    destruct (trackingInfo st ≫= tracking_started_at) as [ts |]; simpl.
  3: destruct (distanceRemaining st) as [q |]; simpl;
       [destruct (Qlt_le_dec q 0.5) |]; simpl.
  all: split; split; intros H; try done; try (by destruct H);
    try (by apply is_Some_None in H); by eexists.
Qed.

(** X25. From the driver to the restaurant: when [stopTracking] ends a session
    and the datastore lets the update through, the event of that update
    turns the status of the sheet to [arrived], whatever the distance and
    the earlier fields were. *)
Theorem stop_shows_arrived (w : Tracker.World)
    (session : Tracker.TrackingSession) (od' : Sql.outgoing_delivery)
    (st : State) :
  (∀ t, timestamp_text t ≠ "") →
  Tracker.isTracking (Tracker.service w) = true →
  Tracker.currentSession (Tracker.service w) = Some session →
  Tracker.accepts (Tracker.backend w) = true →
  Sql.outgoing_deliveries
    (Tracker.db (Tracker.backend (snd (Tracker.stopTracking w))))
    !! Tracker.deliveryId session = Some od' →
  is_Some (trackingInfo st) →
  trackingStatus timestamp_text (on_update od' st) = arrived.
Proof.
  intros Htext Htracking Hsession Haccepts Hod' [info Hinfo].
  assert (Hended : Sql.tracking_ended_at od' = Some (Tracker.clock w)).
  { destruct w as [[cs it fs] [fg bg ws nh tr] [d acc sn gen] clk con].
    simpl in *. subst.
    destruct fs, tr; simpl in Hod'; rewrite lookup_alter_eq in Hod';
      destruct (Sql.outgoing_deliveries d !! Tracker.deliveryId session);
      simpl in Hod'; by simplify_eq. }
  unfold trackingStatus, getTrackingStatus.
  rewrite (time_field_truthy tracking_ended_at) by done.
  simpl. rewrite Hinfo. simpl. by rewrite Hended.
Qed.

End Shown.

Lemma client_follows_projector_witness :
  ∃ od' info',
    Sql.outgoing_deliveries
      (Sql.ingest Examples.db1 Examples.fix_recorded_20) !! "d1" = Some od' ∧
    Subscriber.trackingInfo
      (Subscriber.on_insert Examples.fix_recorded_20 Scenarios.loaded)
      = Some info' ∧
    Subscriber.last_location_update info' = Sql.last_location_update od' ∧
    Subscriber.last_location_update info' = Some 20 ∧
    Subscriber.lastUpdate
      (Subscriber.on_insert Examples.fix_recorded_20 Scenarios.loaded)
      = Some 0.
Proof.
  destruct (client_follows_projector Examples.fix_recorded_20 Examples.db1
              (Sql.ingest Examples.db1 Examples.fix_recorded_20)
              Scenarios.loaded
              (Subscriber.tracking_info_of "d1" Examples.od_pending))
    as (od' & info' & Hod' & Hinfo' & Hsnap & _ & _ & _ & Hdate & _).
  - vm_compute. reflexivity.
  - vm_compute. reflexivity.
  - exists od', info'. injection Hsnap as _ _ _ _ Hlast.
    split_and!; [exact Hod' | exact Hinfo' | exact Hlast | |].
    + vm_compute in Hinfo'. injection Hinfo' as <-. reflexivity.
    + rewrite Hdate. reflexivity.
Defined.

Lemma sheet_badge_text_witness :
  View.text (View.sheet_badge Scenarios.stamp Scenarios.loaded) = "Pending".
Proof.
  apply (sheet_badge_text Scenarios.stamp Scenarios.loaded).
  - intros t. discriminate.
  - split; reflexivity.
Defined.

Lemma stop_shows_arrived_witness :
  View.trackingStatus Scenarios.stamp
    (Subscriber.on_update
       (Tracker.mark_delivered 990
          (Tracker.mark_in_transit 990 Examples.od_pending))
       Scenarios.loaded)
  = Subscriber.arrived.
Proof.
  apply (stop_shows_arrived Scenarios.stamp
           (Examples.started Tracker.granted Tracker.granted true)
           Examples.session1).
  - intros t. discriminate.
  - reflexivity.
  - reflexivity.
  - reflexivity.
  - vm_compute. reflexivity.
  - vm_compute. eauto.
Defined.
